(** * Kubernetes provider of terraformer: configuration resolution and
      catalog building

    A shallow embedding of [providers/kubernetes] (package [kubernetes]):
    [initClientAndConfig], [configFromPath], [applyGlobalOptionsToConfig],
    [GetSupportedService] and the small methods of [KubernetesProvider].

    Go strings are byte strings: they are modelled by [string] (a list of
    8-bit [ascii]), so [String.length] is Go's [len].  A Go [error] is
    modelled by its message; [nil] is [None]. *)

From Stdlib Require Import ZArith Ascii String.
From stdpp Require Import base decidable option list strings gmap.

Local Open Scope string_scope.

(** ** Go strings *)

Module GoString.

(** The double-quote and backslash bytes, by code point. *)
Definition dquote : ascii := ascii_of_nat 34.
Definition backslash : ascii := ascii_of_nat 92.

(** [len(s) > 0]. *)
Definition nonEmpty (s : string) : bool := Nat.ltb 0 (String.length s).

(** [strings.HasPrefix(s, p)]. *)
Fixpoint HasPrefix (s p : string) : bool :=
  match p, s with
  | EmptyString, _ => true
  | String c p', String d s' => if ascii_dec c d then HasPrefix s' p' else false
  | String _ _, EmptyString => false
  end.

(** [strings.Contains(s, sub)]. *)
Fixpoint Contains (s sub : string) : bool :=
  HasPrefix s sub ||
  match s with
  | EmptyString => false
  | String _ s' => Contains s' sub
  end.

(** [strings.Count(s, string(c))] for a one-byte separator. *)
Fixpoint CountByte (c : ascii) (s : string) : nat :=
  match s with
  | EmptyString => 0
  | String d s' => ((if ascii_dec c d then 1 else 0) + CountByte c s')%nat
  end.

(** [strings.Split(s, string(c))]: the fields between occurrences of [c];
    always at least one field. *)
Fixpoint SplitByte (c : ascii) (s : string) : list string :=
  match s with
  | EmptyString => [EmptyString]
  | String d s' =>
      if ascii_dec c d then EmptyString :: SplitByte c s'
      else match SplitByte c s' with
           | [] => [String d EmptyString]
           | f :: fs => String d f :: fs
           end
  end.

(** [strings.Join(elems, sep)]. *)
Fixpoint Join (elems : list string) (sep : string) : string :=
  match elems with
  | [] => EmptyString
  | [e] => e
  | e :: es => e +:+ sep +:+ Join es sep
  end.

(** Two hexadecimal digits of a byte, lower case, as [strconv.Quote]
    prints them after [\x]. *)
Definition hexdigit (n : nat) : ascii :=
  ascii_of_nat (if Nat.ltb n 10 then 48 + n else 87 + n)%nat.

(** One byte of [strconv.Quote]'s output.  Bytes of the ASCII range are
    escaped as Go does; bytes from 0x80 on are copied, which is what Go
    does for the bytes of a printable rune in valid UTF-8. *)
Definition quoteByte (c : ascii) : string :=
  let n := nat_of_ascii c in
  if Nat.eqb n 34 then String backslash (String dquote EmptyString)
  else if Nat.eqb n 92 then String backslash (String backslash EmptyString)
  else if Nat.eqb n 7 then String backslash "a"
  else if Nat.eqb n 8 then String backslash "b"
  else if Nat.eqb n 12 then String backslash "f"
  else if Nat.eqb n 10 then String backslash "n"
  else if Nat.eqb n 13 then String backslash "r"
  else if Nat.eqb n 9 then String backslash "t"
  else if Nat.eqb n 11 then String backslash "v"
  else if Nat.ltb n 32 || Nat.eqb n 127 then
    String backslash (String "x" (String (hexdigit (n / 16)%nat)
                                    (String (hexdigit (n mod 16)%nat) EmptyString)))
  else String c EmptyString.

Fixpoint quoteBody (s : string) : string :=
  match s with
  | EmptyString => EmptyString
  | String c s' => quoteByte c +:+ quoteBody s'
  end.

(** [fmt.Sprintf("%q", s)]. *)
Definition Quote (s : string) : string :=
  String dquote (quoteBody s +:+ String dquote EmptyString).

End GoString.

(** ** The process environment *)

(** What [os.Getenv] and [runtime.GOOS] read. *)
Record OS := {
  GOOS : string;
  environ : gmap string string;
}.

(** [os.Getenv(key)]: the value, or the empty string when unset. *)
Definition Getenv (os : OS) (key : string) : string :=
  default EmptyString (environ os !! key).

(** ** [path/filepath] on the Unix targets *)

Module filepath.

Definition slash : ascii := ascii_of_nat 47.

(** One step of [Clean] over the path elements: the elements kept so far
    are held innermost first. *)
Definition cleanStep (rooted : bool) (out : list string) (elem : string)
  : list string :=
  if String.eqb elem "" then out
  else if String.eqb elem "." then out
  else if String.eqb elem ".." then
    match out with
    | top :: rest =>
        if String.eqb top ".." then ".." :: out else rest
    | [] => if rooted then [] else [".."]
    end
  else elem :: out.

(** [filepath.Clean] (separator [/]): empty and [.] elements are dropped,
    an inner [..] removes the element before it, [..] at the start of a
    rooted path is dropped, and the empty result is [.]. *)
Definition Clean (path : string) : string :=
  if String.eqb path "" then "."
  else
    let rooted := GoString.HasPrefix path "/" in
    let out := fold_left (cleanStep rooted) (GoString.SplitByte slash path) [] in
    let body := GoString.Join (rev out) "/" in
    if rooted then "/" +:+ body
    else if String.eqb body "" then "." else body.

(** [filepath.Join] (Unix): leading empty elements are ignored, the rest
    is joined with [/] and cleaned; all elements empty gives the empty string. *)
Fixpoint Join (elem : list string) : string :=
  match elem with
  | [] => ""
  | e :: rest =>
      if String.eqb e "" then Join rest
      else Clean (GoString.Join elem "/")
  end.

End filepath.

(** A Go [error], by its message. *)
Definition error : Type := string.

(** ** [time.ParseDuration]

    As in Go 1.15 and later: the value is accumulated in a [uint64] and
    the messages quote the input. *)

Module time.

Local Open Scope Z_scope.

(** A [time.Duration]: a count of nanoseconds held in an [int64]. *)
Definition Duration : Type := Z.

Definition Nanosecond : Duration := 1.
Definition Microsecond : Duration := 1000 * Nanosecond.
Definition Millisecond : Duration := 1000 * Microsecond.
Definition Second : Duration := 1000 * Millisecond.
Definition Minute : Duration := 60 * Second.
Definition Hour : Duration := 60 * Minute.

(** Wrap-around of [uint64] arithmetic and the conversion to [int64]. *)
Definition wrapU64 (z : Z) : Z := z mod 2 ^ 64.
Definition toInt64 (z : Z) : Z :=
  let u := z mod 2 ^ 64 in if u <? 2 ^ 63 then u else u - 2 ^ 64.

Definition isDigit (c : ascii) : bool :=
  let n := nat_of_ascii c in Nat.leb 48 n && Nat.leb n 57.
Definition isDot (c : ascii) : bool := Nat.eqb (nat_of_ascii c) 46.
Definition digitVal (c : ascii) : Z := Z.of_nat (nat_of_ascii c) - 48.

(** The package's own [quote]: bytes below 0x20 or from 0x80 on are
    written [\xNN], the double quote and the backslash are escaped. *)
Definition quoteByte (c : ascii) : string :=
  let n := nat_of_ascii c in
  if Nat.leb 128 n || Nat.ltb n 32 then
    String GoString.backslash
      (String "x" (String (GoString.hexdigit (n / 16)%nat)
                     (String (GoString.hexdigit (n mod 16)%nat) EmptyString)))
  else if Nat.eqb n 34 || Nat.eqb n 92 then
    String GoString.backslash (String c EmptyString)
  else String c EmptyString.

Fixpoint quoteBody (s : string) : string :=
  match s with
  | EmptyString => EmptyString
  | String c s' => quoteByte c +:+ quoteBody s'
  end.

Definition quote (s : string) : string :=
  String GoString.dquote (quoteBody s +:+ String GoString.dquote EmptyString).

(** [leadingInt]: consumes the leading digits of [s]; [None] is
    [errLeadingInt] (overflow). *)
Fixpoint leadingIntFrom (x : Z) (s : string) : option (Z * string) :=
  match s with
  | EmptyString => Some (x, s)
  | String c s' =>
      if negb (isDigit c) then Some (x, s)
      else if x >? 2 ^ 63 / 10 then None
      else
        let x := wrapU64 (x * 10 + digitVal c) in
        if x >? 2 ^ 63 then None else leadingIntFrom x s'
  end.

Definition leadingInt (s : string) : option (Z * string) := leadingIntFrom 0 s.

(** [leadingFraction]: consumes the leading digits of [s]; on overflow it
    stops accumulating precision.  [scale] is a power of ten, exact in a
    [float64] for every value reached here. *)
Fixpoint leadingFractionFrom (x scale : Z) (overflow : bool) (s : string)
  : Z * Z * string :=
  match s with
  | EmptyString => (x, scale, s)
  | String c s' =>
      if negb (isDigit c) then (x, scale, s)
      else if overflow then leadingFractionFrom x scale overflow s'
      else if x >? (2 ^ 63 - 1) / 10 then leadingFractionFrom x scale true s'
      else
        let y := wrapU64 (x * 10 + digitVal c) in
        if y >? 2 ^ 63 then leadingFractionFrom x scale true s'
        else leadingFractionFrom y (scale * 10) overflow s'
  end.

Definition leadingFraction (s : string) : Z * Z * string :=
  leadingFractionFrom 0 1 false s.

(** The unit of a term: the bytes up to the next digit or dot. *)
Fixpoint spanUnit (s : string) : string * string :=
  match s with
  | EmptyString => (EmptyString, s)
  | String c s' =>
      if isDot c || isDigit c then (EmptyString, s)
      else let '(u, rest) := spanUnit s' in (String c u, rest)
  end.

(** The micro sign U+00B5 and the Greek mu U+03BC, in UTF-8. *)
Definition micro : string :=
  String (ascii_of_nat 194) (String (ascii_of_nat 181) "s").
Definition mu : string :=
  String (ascii_of_nat 206) (String (ascii_of_nat 188) "s").

Definition unitMap (u : string) : option Z :=
  if String.eqb u "ns" then Some Nanosecond
  else if String.eqb u "us" then Some Microsecond
  else if String.eqb u micro then Some Microsecond
  else if String.eqb u mu then Some Microsecond
  else if String.eqb u "ms" then Some Millisecond
  else if String.eqb u "s" then Some Second
  else if String.eqb u "m" then Some Minute
  else if String.eqb u "h" then Some Hour
  else None.

Definition errInvalid (orig : string) : error :=
  "time: invalid duration " +:+ quote orig.

Section ParseDuration.

(** [uint64(float64(f) * (float64(unit) / scale))]: the nanoseconds of a
    fractional part.  Floating-point arithmetic is not modelled; the
    operation is a parameter. *)
Variable fraction : Z -> Z -> Z -> Z.

(** The loop [for s != ""] of [ParseDuration]; every round consumes at
    least the unit, so [String.length s] rounds are always enough. *)
Fixpoint parseTerms (fuel : nat) (orig s : string) (d : Z) : Z + error :=
  if String.eqb s "" then inl d
  else match fuel with
  | O => inr (errInvalid orig)
  | S fuel =>
      match s with
      | EmptyString => inl d
      | String c0 _ =>
          if negb (isDot c0 || isDigit c0) then inr (errInvalid orig)
          else
            let pl := String.length s in
            match leadingInt s with
            | None => inr (errInvalid orig)
            | Some (v, s) =>
                let pre := negb (Nat.eqb pl (String.length s)) in
                let '(f, scale, s, post) :=
                  match s with
                  | String c s' =>
                      if isDot c then
                        let pl := String.length s' in
                        let '(f, scale, s'') := leadingFraction s' in
                        (f, scale, s'', negb (Nat.eqb pl (String.length s'')))
                      else (0, 1, s, false)
                  | EmptyString => (0, 1, s, false)
                  end in
                if negb pre && negb post then inr (errInvalid orig)
                else
                  let '(u, s) := spanUnit s in
                  if String.eqb u "" then
                    inr ("time: missing unit in duration " +:+ quote orig)
                  else
                    match unitMap u with
                    | None =>
                        inr ("time: unknown unit " +:+ quote u +:+
                             " in duration " +:+ quote orig)
                    | Some unit =>
                        if v >? 2 ^ 63 / unit then inr (errInvalid orig)
                        else
                          let v := wrapU64 (v * unit) in
                          let v' :=
                            if f >? 0 then wrapU64 (v + fraction f unit scale)
                            else v in
                          if (f >? 0) && (v' >? 2 ^ 63) then inr (errInvalid orig)
                          else
                            let d := wrapU64 (d + v') in
                            if d >? 2 ^ 63 then inr (errInvalid orig)
                            else parseTerms fuel orig s d
                    end
            end
      end
  end.

(** [time.ParseDuration(s)]. *)
Definition ParseDuration (s : string) : Duration + error :=
  let orig := s in
  let '(neg, s) :=
    match s with
    | String c s' =>
        if Nat.eqb (nat_of_ascii c) 45 then (true, s')
        else if Nat.eqb (nat_of_ascii c) 43 then (false, s')
        else (false, s)
    | EmptyString => (false, s)
    end in
  if String.eqb s "0" then inl 0
  else if String.eqb s "" then inr (errInvalid orig)
  else
    match parseTerms (String.length s) orig s 0 with
    | inr e => inr e
    | inl d =>
        if neg then inl (toInt64 (- toInt64 d))
        else if d >? 2 ^ 63 - 1 then inr (errInvalid orig)
        else inl (toInt64 d)
    end.

End ParseDuration.

End time.

(** ** [schema.ParseGroupVersion] of apimachinery *)

Module schema.

Record GroupVersion := { Group : string; Version : string }.

(** The text before and after the first [/]. *)
Fixpoint cut (s : string) : string * string :=
  match s with
  | EmptyString => (EmptyString, EmptyString)
  | String c s' =>
      if ascii_dec c filepath.slash then (EmptyString, s')
      else let '(a, b) := cut s' in (String c a, b)
  end.

Definition ParseGroupVersion (gv : string) : GroupVersion + error :=
  if Nat.eqb (String.length gv) 0 || String.eqb gv "/" then
    inl {| Group := ""; Version := "" |}
  else
    match GoString.CountByte filepath.slash gv with
    | 0%nat => inl {| Group := ""; Version := gv |}
    | 1%nat => let '(g, v) := cut gv in inl {| Group := g; Version := v |}
    | _ => inr ("unexpected GroupVersion string: " +:+ gv)
    end.

End schema.

(** ** Data of the client libraries *)

(** [restclient.Config], the fields this package reads or writes. *)
Module restclient.

Record ImpersonationConfig := {
  UserName : string;
  Groups : list string;
}.

Record TLSClientConfig := {
  ServerName : string;
  CertFile : string;
  KeyFile : string;
  CAFile : string;
}.

Record Config := {
  Host : string;
  Username : string;
  Password : string;
  BearerToken : string;
  Impersonate : ImpersonationConfig;
  TLS : TLSClientConfig;
  Timeout : time.Duration;
}.

(** Assignments through the [*restclient.Config] pointer. *)
Definition set_Impersonate_UserName (v : string) (c : Config) : Config :=
  {| Host := Host c; Username := Username c; Password := Password c;
     BearerToken := BearerToken c;
     Impersonate := {| UserName := v; Groups := Groups (Impersonate c) |};
     TLS := TLS c; Timeout := Timeout c |}.

Definition set_Impersonate_Groups (v : list string) (c : Config) : Config :=
  {| Host := Host c; Username := Username c; Password := Password c;
     BearerToken := BearerToken c;
     Impersonate := {| UserName := UserName (Impersonate c); Groups := v |};
     TLS := TLS c; Timeout := Timeout c |}.

Definition set_TLS (t : TLSClientConfig) (c : Config) : Config :=
  {| Host := Host c; Username := Username c; Password := Password c;
     BearerToken := BearerToken c; Impersonate := Impersonate c;
     TLS := t; Timeout := Timeout c |}.

Definition set_CAFile (v : string) (c : Config) : Config :=
  set_TLS {| ServerName := ServerName (TLS c); CertFile := CertFile (TLS c);
             KeyFile := KeyFile (TLS c); CAFile := v |} c.

Definition set_CertFile (v : string) (c : Config) : Config :=
  set_TLS {| ServerName := ServerName (TLS c); CertFile := v;
             KeyFile := KeyFile (TLS c); CAFile := CAFile (TLS c) |} c.

Definition set_KeyFile (v : string) (c : Config) : Config :=
  set_TLS {| ServerName := ServerName (TLS c); CertFile := CertFile (TLS c);
             KeyFile := v; CAFile := CAFile (TLS c) |} c.

(** [config.ServerName] is the field promoted from the embedded
    [TLSClientConfig]. *)
Definition set_ServerName (v : string) (c : Config) : Config :=
  set_TLS {| ServerName := v; CertFile := CertFile (TLS c);
             KeyFile := KeyFile (TLS c); CAFile := CAFile (TLS c) |} c.

Definition set_Timeout (v : time.Duration) (c : Config) : Config :=
  {| Host := Host c; Username := Username c; Password := Password c;
     BearerToken := BearerToken c; Impersonate := Impersonate c;
     TLS := TLS c; Timeout := v |}.

Definition set_BearerToken (v : string) (c : Config) : Config :=
  {| Host := Host c; Username := Username c; Password := Password c;
     BearerToken := v; Impersonate := Impersonate c;
     TLS := TLS c; Timeout := Timeout c |}.

Definition set_Username (v : string) (c : Config) : Config :=
  {| Host := Host c; Username := v; Password := Password c;
     BearerToken := BearerToken c; Impersonate := Impersonate c;
     TLS := TLS c; Timeout := Timeout c |}.

Definition set_Password (v : string) (c : Config) : Config :=
  {| Host := Host c; Username := Username c; Password := v;
     BearerToken := BearerToken c; Impersonate := Impersonate c;
     TLS := TLS c; Timeout := Timeout c |}.

End restclient.

(** [k8s.io/client-go/tools/clientcmd]: the values this package builds. *)
Module clientcmd.

Record ClientConfigLoadingRules := {
  ExplicitPath : string;
  Precedence : list string;
}.

(** [clientcmd.ConfigOverrides], with [Context.Namespace] the one field
    set here. *)
Record ConfigOverrides := {
  Context_Namespace : string;
}.

(** The two implementations of the interface [clientcmd.ClientConfig]
    that [configFromPath] constructs, over the type [C] of a parsed
    kubeconfig ([clientcmdapi.Config]). *)
Inductive ClientConfig (C : Type) : Type :=
| NewNonInteractiveClientConfig
    (config : C) (contextName : string) (overrides : ConfigOverrides)
    (configAccess : ClientConfigLoadingRules)
| NewDefaultClientConfig (config : C) (overrides : ConfigOverrides).

Arguments NewNonInteractiveClientConfig {C} _ _ _ _.
Arguments NewDefaultClientConfig {C} _ _.

End clientcmd.

(** [metav1.APIResourceList] and [metav1.APIResource], as discovery
    returns them. *)
Module metav1.

Record APIResource := {
  Name : string;
  Namespaced : bool;
  Kind : string;
  Verbs : list string;
}.

Record APIResourceList := {
  GroupVersion : string;
  APIResources : list APIResource;
}.

End metav1.

#[global] Instance APIResource_eq_dec : EqDecision metav1.APIResource.
Proof. solve_decision. Defined.

(** [sets.NewString(items...).Has(item)]. *)
Definition sets_NewString (items : list string) : gset string :=
  list_to_set items.
Definition sets_Has (s : gset string) (item : string) : bool :=
  bool_decide (item ∈ s).

(** ** Collaborators outside the package *)

(** The libraries and services the package calls and this development
    does not model: the kubeconfig loader, the discovery client, the
    Terraform provider wrapper, [encoding/json], floating point, and the
    Windows build of [path/filepath].  [extractTfResourceName] and
    [GetProviderVersion] are helpers of the repository whose source is not
    part of the files in view. *)
Class External := {
  clientcmdapi_Config : Type;
  DiscoveryClient : Type;
  ProviderWrapper : Type;
  configschema : Type;
  (** [rules.Load()] *)
  rules_Load : clientcmd.ClientConfigLoadingRules -> clientcmdapi_Config + error;
  (** [clientcmd.NewDefaultClientConfigLoadingRules()] *)
  NewDefaultClientConfigLoadingRules : OS -> clientcmd.ClientConfigLoadingRules;
  (** [config.ClientConfig()] *)
  ClientConfig_ClientConfig :
    clientcmd.ClientConfig clientcmdapi_Config -> restclient.Config + error;
  (** [json.Unmarshal(data, &v)] for [v] a [[]string]: the slice after
      the call and the error. *)
  json_Unmarshal : string -> list string -> list string * option error;
  (** [uint64(float64(f) * (float64(unit) / scale))] *)
  float64_fraction : Z -> Z -> Z -> Z;
  (** [filepath.Join] when [runtime.GOOS] is [windows] *)
  filepath_Join_windows : list string -> string;
  (** [discovery.NewDiscoveryClientForConfig(config)] *)
  NewDiscoveryClientForConfig : restclient.Config -> DiscoveryClient + error;
  (** [dc.ServerPreferredResources()]: Go returns both values *)
  ServerPreferredResources :
    DiscoveryClient -> list metav1.APIResourceList * option error;
  (** [provider_wrapper.NewProviderWrapper(name, cty.Value{}, verbose)] *)
  NewProviderWrapper : string -> bool -> ProviderWrapper + error;
  (** [provider.GetSchema().ResourceTypes] *)
  GetSchema_ResourceTypes : ProviderWrapper -> gmap string configschema;
  extractTfResourceName : string -> string;
  (** [provider_wrapper.GetProviderVersion(name)] *)
  GetProviderVersion : string -> string;
}.

(** ** The package *)

(** The struct [Kind], the descriptor stored in the catalog.  It is
    declared in another file of the package; the fields are those of the
    composite literal on lines 133-138. *)
Record Kind := {
  Group : string;
  Version : string;
  Name : string;
  Namespaced : bool;
}.

#[global] Instance Kind_eq_dec : EqDecision Kind.
Proof. solve_decision. Defined.

Record KubernetesProvider := {
  Service : option Kind;
  region : string;
  verbose : string;
}.

Section Package.

Context `{External}.

(** [filepath.Join] of the build selected by [runtime.GOOS]. *)
Definition filepath_Join (os : OS) (elem : list string) : string :=
  if String.eqb (GOOS os) "windows" then filepath_Join_windows elem
  else filepath.Join elem.

(** Lines 151-157 of [initClientAndConfig]: the home directory.  In the
    [windows] branch [home := ...] declares a new variable, local to the
    block; the assignment inside the block goes to that variable, and the
    [home] declared on line 151 keeps its value. *)
Definition initClientAndConfig_home (os : OS) : string :=
  let home := Getenv os "HOME" in
  let _ :=
    if String.eqb (GOOS os) "windows" then
      let home := Getenv os "HOMEDRIVE" +:+ Getenv os "HOMEPATH" in
      let home := if String.eqb home "" then Getenv os "USERPROFILE" else home in
      home
    else "" in
  home.

(** Lines 151-171 of [initClientAndConfig]: the kubeconfig location. *)
Definition initClientAndConfig_kubeconfig (os : OS) : string :=
  let home := initClientAndConfig_home os in
  let kubeconfig := filepath_Join os [home; ".kube"; "config"] in
  let kubeconfigEnv := Getenv os "KUBECONFIG" in
  let kubeconfig :=
    if Nat.ltb 0 (String.length kubeconfigEnv) then kubeconfigEnv
    else kubeconfig in
  let configFile := Getenv os "KUBECTL_PLUGINS_GLOBAL_FLAG_CONFIG" in
  let kubeConfigFile := Getenv os "KUBECTL_PLUGINS_GLOBAL_FLAG_KUBECONFIG" in
  if Nat.ltb 0 (String.length configFile) then configFile
  else if Nat.ltb 0 (String.length kubeConfigFile) then kubeConfigFile
  else kubeconfig.

Definition configFromPath (os : OS) (path : string)
  : clientcmd.ClientConfig clientcmdapi_Config + error :=
  let rules := {| clientcmd.ExplicitPath := path; clientcmd.Precedence := [] |} in
  match rules_Load rules with
  | inr err =>
      inr ("the provided credentials " +:+ GoString.Quote path +:+
           " could not be loaded: " +:+ err)
  | inl credentials =>
      let overrides :=
        {| clientcmd.Context_Namespace :=
             Getenv os "KUBECTL_PLUGINS_GLOBAL_FLAG_NAMESPACE" |} in
      let context := Getenv os "KUBECTL_PLUGINS_GLOBAL_FLAG_CONTEXT" in
      if Nat.ltb 0 (String.length context) then
        let rules := NewDefaultClientConfigLoadingRules os in
        inl (clientcmd.NewNonInteractiveClientConfig
               credentials context overrides rules)
      else inl (clientcmd.NewDefaultClientConfig credentials overrides)
  end.

(** Statements over the configuration behind the [*restclient.Config]
    pointer: each returns the configuration as it leaves it and the error
    it returns, [None] when control falls through to the next statement. *)
Definition stmt : Type := restclient.Config -> restclient.Config * option error.

Definition skip : stmt := fun c => (c, None).
Definition assign (f : restclient.Config -> restclient.Config) : stmt :=
  fun c => (f c, None).
Definition ret (err : error) : stmt := fun c => (c, Some err).
Definition when (b : bool) (s : stmt) : stmt := if b then s else skip.
Definition seq (a b : stmt) : stmt :=
  fun c => match a c with
           | (c', None) => b c'
           | (c', Some err) => (c', Some err)
           end.

Local Notation "a ;; b" := (seq a b) (at level 100, b at level 200).

Definition applyGlobalOptionsToConfig (os : OS) : stmt :=
  (* impersonation config *)
  (let impersonateUser := Getenv os "KUBECTL_PLUGINS_GLOBAL_FLAG_AS" in
   when (Nat.ltb 0 (String.length impersonateUser))
     (assign (restclient.set_Impersonate_UserName impersonateUser))) ;;
  (let impersonateGroup := Getenv os "KUBECTL_PLUGINS_GLOBAL_FLAG_AS_GROUP" in
   when (Nat.ltb 0 (String.length impersonateGroup))
     (let '(impersonateGroupJSON, err) := json_Unmarshal impersonateGroup [] in
      match err with
      | Some err =>
          ret ("error parsing global option " +:+ GoString.Quote "--as-group"
               +:+ ": " +:+ err)
      | None =>
          when (Nat.ltb 0 (length impersonateGroupJSON))
            (assign (restclient.set_Impersonate_Groups impersonateGroupJSON))
      end)) ;;
  (* tls config *)
  (let caFile := Getenv os "KUBECTL_PLUGINS_GLOBAL_FLAG_CERTIFICATE_AUTHORITY" in
   when (Nat.ltb 0 (String.length caFile))
     (assign (restclient.set_CAFile caFile))) ;;
  (let clientCertFile := Getenv os "KUBECTL_PLUGINS_GLOBAL_FLAG_CLIENT_CERTIFICATE" in
   when (Nat.ltb 0 (String.length clientCertFile))
     (assign (restclient.set_CertFile clientCertFile))) ;;
  (let clientKey := Getenv os "KUBECTL_PLUGINS_GLOBAL_FLAG_CLIENT_KEY" in
   when (Nat.ltb 0 (String.length clientKey))
     (assign (restclient.set_KeyFile clientKey))) ;;
  (let cluster := Getenv os "KUBECTL_PLUGINS_GLOBAL_FLAG_CLUSTER" in
   when (Nat.ltb 0 (String.length cluster)) skip) ;;
  (let user := Getenv os "KUBECTL_PLUGINS_GLOBAL_FLAG_USER" in
   when (Nat.ltb 0 (String.length user)) skip) ;;
  (* user / misc request config *)
  (let requestTimeout := Getenv os "KUBECTL_PLUGINS_GLOBAL_FLAG_REQUEST_TIMEOUT" in
   when (Nat.ltb 0 (String.length requestTimeout))
     (match time.ParseDuration float64_fraction requestTimeout with
      | inr err => ret err
      | inl t => assign (restclient.set_Timeout t)
      end)) ;;
  (let server := Getenv os "KUBECTL_PLUGINS_GLOBAL_FLAG_SERVER" in
   when (Nat.ltb 0 (String.length server))
     (assign (restclient.set_ServerName server))) ;;
  (let token := Getenv os "KUBECTL_PLUGINS_GLOBAL_FLAG_TOKEN" in
   when (Nat.ltb 0 (String.length token))
     (assign (restclient.set_BearerToken token))) ;;
  (let username := Getenv os "KUBECTL_PLUGINS_GLOBAL_FLAG_USERNAME" in
   when (Nat.ltb 0 (String.length username))
     (assign (restclient.set_Username username))) ;;
  (let password := Getenv os "KUBECTL_PLUGINS_GLOBAL_FLAG_PASSWORD" in
   when (Nat.ltb 0 (String.length password))
     (assign (restclient.set_Password password))).

(** The message of line 174. *)
Definition errKubeconfigUndefined : error :=
  "error initializing config. The KUBECONFIG environment variable must be defined.".

(** Lines 173-191 of [initClientAndConfig], from the resolved location on. *)
Definition initClientAndConfig_from (os : OS) (kubeconfig : string)
  : restclient.Config * clientcmd.ClientConfig clientcmdapi_Config + error :=
  if Nat.eqb (String.length kubeconfig) 0 then inr errKubeconfigUndefined
  else
    match configFromPath os kubeconfig with
    | inr err => inr ("error obtaining kubectl config: " +:+ err)
    | inl config =>
        match ClientConfig_ClientConfig config with
        | inr err =>
            inr ("the provided credentials " +:+ GoString.Quote kubeconfig +:+
                 " could not be used: " +:+ err)
        | inl client =>
            match applyGlobalOptionsToConfig os client with
            | (_, Some err) =>
                inr ("error processing global plugin options: " +:+ err)
            | (client, None) => inl (client, config)
            end
        end
    end.

Definition initClientAndConfig (os : OS)
  : restclient.Config * clientcmd.ClientConfig clientcmdapi_Config + error :=
  initClientAndConfig_from os (initClientAndConfig_kubeconfig os).

(** The body of the inner loop of [GetSupportedService] (lines 118-139). *)
Definition GetSupportedService_resource
    (ResourceTypes : gmap string configschema) (gv : schema.GroupVersion)
    (resources : gmap string Kind) (resource : metav1.APIResource)
  : gmap string Kind :=
  if Nat.eqb (length (metav1.Verbs resource)) 0 then resources
  else if Nat.ltb 0 (length (metav1.Verbs resource)) &&
          negb (sets_Has (sets_NewString (metav1.Verbs resource)) "list")
  then resources
  else
    match ResourceTypes !! extractTfResourceName (metav1.Kind resource) with
    | None => resources
    | Some _ =>
        <[metav1.Name resource :=
            {| Group := schema.Group gv;
               Version := schema.Version gv;
               Name := metav1.Kind resource;
               Namespaced := metav1.Namespaced resource |}]> resources
    end.

(** The body of the outer loop (lines 108-140). *)
Definition GetSupportedService_list
    (ResourceTypes : gmap string configschema)
    (resources : gmap string Kind) (list : metav1.APIResourceList)
  : gmap string Kind :=
  if Nat.eqb (length (metav1.APIResources list)) 0 then resources
  else
    match schema.ParseGroupVersion (metav1.GroupVersion list) with
    | inr _ => resources
    | inl gv =>
        fold_left (GetSupportedService_resource ResourceTypes gv)
          (metav1.APIResources list) resources
    end.

(** [GetSupportedService]: the catalog, and the lines written with
    [log.Println]. *)
Definition GetSupportedService (p : KubernetesProvider) (os : OS)
  : gmap string Kind * list string :=
  let resources : gmap string Kind := ∅ in
  match initClientAndConfig os with
  | inr _ => (resources, [])
  | inl (config, _) =>
      match NewDiscoveryClientForConfig config with
      | inr err => (resources, [err])
      | inl dc =>
          match ServerPreferredResources dc with
          | (_, Some err) => (resources, [err])
          | (lists, None) =>
              match NewProviderWrapper "kubernetes" (String.eqb (verbose p) "true") with
              | inr err => (resources, [err])
              | inl provider =>
                  let resp := GetSchema_ResourceTypes provider in
                  (fold_left (GetSupportedService_list resp) lists resources, [])
              end
          end
      end
  end.

(** The methods of [KubernetesProvider]. *)
Definition GetResourceConnections (p : KubernetesProvider)
  : gmap string (gmap string (list string)) := ∅.

Definition GetName (p : KubernetesProvider) : string := "kubernetes".

(** [Init]: [args[0]] panics on an empty slice; [None] is the panic. *)
Definition Init (p : KubernetesProvider) (args : list string)
  : option (KubernetesProvider * option error) :=
  match args with
  | [] => None
  | a :: _ =>
      Some ({| Service := Service p; region := region p; verbose := a |}, None)
  end.

End Package.

(** ** Vocabulary of the statements *)

(** [os.Setenv] and [os.Unsetenv], to speak of one variable changing. *)
Definition Setenv (os : OS) (key value : string) : OS :=
  {| GOOS := GOOS os; environ := <[key := value]> (environ os) |}.

Definition Unsetenv (os : OS) (key : string) : OS :=
  {| GOOS := GOOS os; environ := delete key (environ os) |}.

(** The highest-precedence location that is present, of a list given
    highest precedence first (a location is present when it is not the
    empty string). *)
Fixpoint highestPrecedence (sources : list string) : string :=
  match sources with
  | [] => ""
  | s :: rest => if String.eqb s "" then highestPrecedence rest else s
  end.

(** The discovery entries of a listing, in order: every resource with the
    group/version string it is listed under. *)
Definition entries (lists : list metav1.APIResourceList)
  : list (string * metav1.APIResource) :=
  lists ≫= (λ list, pair (metav1.GroupVersion list) <$> metav1.APIResources list).

Section Vocabulary.

Context `{External}.

(** The four kubeconfig locations of [initClientAndConfig], highest
    precedence first; the last is the platform default. *)
Definition platformDefault (os : OS) : string :=
  filepath_Join os [initClientAndConfig_home os; ".kube"; "config"].

Definition kubeconfigSources (os : OS) : list string :=
  [ Getenv os "KUBECTL_PLUGINS_GLOBAL_FLAG_CONFIG";
    Getenv os "KUBECTL_PLUGINS_GLOBAL_FLAG_KUBECONFIG";
    Getenv os "KUBECONFIG";
    platformDefault os ].

(** The [Kind] the loop stores for a resource listed under a parsed
    group/version. *)
Definition kindOf (gv : schema.GroupVersion) (resource : metav1.APIResource)
  : Kind :=
  {| Group := schema.Group gv; Version := schema.Version gv;
     Name := metav1.Kind resource;
     Namespaced := metav1.Namespaced resource |}.

(** A discovery entry is importable: it supports [list] and the schema
    provider declares a type under the normalised kind name. *)
Definition importable (ResourceTypes : gmap string configschema)
    (resource : metav1.APIResource) : Prop :=
  "list" ∈ metav1.Verbs resource ∧
  is_Some (ResourceTypes !! extractTfResourceName (metav1.Kind resource)).

(** The discovery listing and the schema that [GetSupportedService]
    obtained: all three sessions succeeded. *)
Definition discovered (p : KubernetesProvider) (os : OS)
    (lists : list metav1.APIResourceList)
    (ResourceTypes : gmap string configschema) : Prop :=
  ∃ config cc dc provider,
    initClientAndConfig os = inl (config, cc) ∧
    NewDiscoveryClientForConfig config = inl dc ∧
    ServerPreferredResources dc = (lists, None) ∧
    NewProviderWrapper "kubernetes" (String.eqb (verbose p) "true") = inl provider ∧
    GetSchema_ResourceTypes provider = ResourceTypes.

#[global] Instance importable_dec
    (ResourceTypes : gmap string configschema) (resource : metav1.APIResource) :
  Decision (importable ResourceTypes resource).
Proof. unfold importable. apply _. Defined.

End Vocabulary.

(** A statement leaves a part of the configuration as it found it. *)
Definition preserves {A : Type} (part : restclient.Config → A) (s : stmt) : Prop :=
  ∀ c, part (s c).1 = part c.

(** A statement returns no error. *)
Definition falls_through (s : stmt) : Prop := ∀ c, (s c).2 = None.

(** ** A sample world *)

(** Canned answers of the collaborators, to run the package on concrete
    inputs. *)
Module Sample.

Definition dq : string := String GoString.dquote EmptyString.

Definition baseConfig : restclient.Config :=
  {| restclient.Host := "https://10.0.0.1:6443";
     restclient.Username := ""; restclient.Password := "";
     restclient.BearerToken := "";
     restclient.Impersonate :=
       {| restclient.UserName := ""; restclient.Groups := ["system:masters"] |};
     restclient.TLS :=
       {| restclient.ServerName := ""; restclient.CertFile := "";
          restclient.KeyFile := ""; restclient.CAFile := "" |};
     restclient.Timeout := 0%Z |}.

Definition pods : metav1.APIResource :=
  {| metav1.Name := "pods"; metav1.Namespaced := true; metav1.Kind := "Pod";
     metav1.Verbs := ["get"; "list"; "watch"] |}.

Definition bindings : metav1.APIResource :=
  {| metav1.Name := "bindings"; metav1.Namespaced := true;
     metav1.Kind := "Binding"; metav1.Verbs := ["create"] |}.

Definition tokenreviews : metav1.APIResource :=
  {| metav1.Name := "tokenreviews"; metav1.Namespaced := false;
     metav1.Kind := "TokenReview"; metav1.Verbs := [] |}.

Definition deployments : metav1.APIResource :=
  {| metav1.Name := "deployments"; metav1.Namespaced := true;
     metav1.Kind := "Deployment"; metav1.Verbs := ["list"; "get"] |}.

Definition leases : metav1.APIResource :=
  {| metav1.Name := "leases"; metav1.Namespaced := true;
     metav1.Kind := "Lease"; metav1.Verbs := ["list"] |}.

Definition listing : list metav1.APIResourceList :=
  [ {| metav1.GroupVersion := "v1";
       metav1.APIResources := [pods; bindings; tokenreviews] |};
    {| metav1.GroupVersion := "apps/v1";
       metav1.APIResources := [deployments] |};
    {| metav1.GroupVersion := "coordination.k8s.io/v1";
       metav1.APIResources := [leases] |} ].

(** A listing whose group/version string does not parse. *)
Definition malformedListing : list metav1.APIResourceList :=
  [ {| metav1.GroupVersion := "apps/v1/extra";
       metav1.APIResources := [deployments] |} ].

Definition resourceTypes : gmap string unit :=
  {[ "kubernetes_Pod" := (); "kubernetes_Deployment" := () ]}.

(** The world: a kubeconfig at [/home/dev/.kube/config] and at
    [.kube/config], a discovery endpoint that answers [discovery], and a
    schema provider that answers [provider]. *)
Definition world
    (discovery : restclient.Config + error)
    (preferred : list metav1.APIResourceList * option error)
    (provider : unit + error) : External :=
  {| clientcmdapi_Config := string;
     DiscoveryClient := restclient.Config;
     ProviderWrapper := unit;
     configschema := unit;
     rules_Load := λ rules,
       if String.eqb (clientcmd.ExplicitPath rules) "/home/dev/.kube/config"
       then inl "current-context: dev"
       else if String.eqb (clientcmd.ExplicitPath rules) ".kube/config"
       then inl "current-context: local"
       else inr ("stat " +:+ clientcmd.ExplicitPath rules +:+
                 ": no such file or directory");
     NewDefaultClientConfigLoadingRules := λ os,
       {| clientcmd.ExplicitPath := "";
          clientcmd.Precedence := [Getenv os "KUBECONFIG"] |};
     ClientConfig_ClientConfig := λ _, inl baseConfig;
     json_Unmarshal := λ data v,
       if String.eqb data "[]" then ([], None)
       else if String.eqb data ("[" +:+ dq +:+ "admins" +:+ dq +:+ "]")
       then (["admins"], None)
       else (v, Some "invalid character 'o' in literal null (expecting 'u')");
     float64_fraction := λ f unit scale, (f * unit / scale)%Z;
     filepath_Join_windows := λ elem,
       GoString.Join (filter (λ e, e ≠ "") elem) (String GoString.backslash "");
     NewDiscoveryClientForConfig := λ _, discovery;
     ServerPreferredResources := λ _, preferred;
     NewProviderWrapper := λ _ _, provider;
     GetSchema_ResourceTypes := λ _, resourceTypes;
     extractTfResourceName := λ kind, "kubernetes_" +:+ kind;
     GetProviderVersion := λ _, "1.10.0" |}.

Definition healthy : External :=
  world (inl baseConfig) (listing, None) (inl ()).

Definition linux (env : list (string * string)) : OS :=
  {| GOOS := "linux"; environ := list_to_map env |}.

Definition windows (env : list (string * string)) : OS :=
  {| GOOS := "windows"; environ := list_to_map env |}.

Definition provider : KubernetesProvider :=
  {| Service := None; region := ""; verbose := "false" |}.

End Sample.

(** The sample cluster, reached from a home directory holding a
    kubeconfig. *)
Definition sampleOS : OS := Sample.linux [("HOME", "/home/dev")].

(** All four kubeconfig locations given at once. *)
Definition allSourcesOS : OS :=
  Sample.linux
    [ ("HOME", "/home/dev"); ("KUBECONFIG", "/env/config");
      ("KUBECTL_PLUGINS_GLOBAL_FLAG_KUBECONFIG", "/flag/kubeconfig");
      ("KUBECTL_PLUGINS_GLOBAL_FLAG_CONFIG", "/flag/config") ].

Definition emptyGroupsOS : OS :=
  Sample.linux [("KUBECTL_PLUGINS_GLOBAL_FLAG_AS_GROUP", "[]")].

Definition malformedGroupsOS : OS :=
  Sample.linux [ ("KUBECTL_PLUGINS_GLOBAL_FLAG_AS", "alice");
                 ("KUBECTL_PLUGINS_GLOBAL_FLAG_AS_GROUP", "not json") ].

Definition badTimeoutOS : OS :=
  Sample.linux [("KUBECTL_PLUGINS_GLOBAL_FLAG_REQUEST_TIMEOUT", "notaduration")].

Definition badTimeoutHomeOS : OS :=
  Sample.linux [ ("HOME", "/home/dev");
                 ("KUBECTL_PLUGINS_GLOBAL_FLAG_REQUEST_TIMEOUT", "soon") ].

Definition missingKubeconfigOS : OS :=
  Sample.linux [("KUBECONFIG", "/missing")].

(** A world whose group/version string does not parse, and one whose
    discovery endpoint refuses the connection. *)
Definition malformedWorld : External :=
  Sample.world (inl Sample.baseConfig) (Sample.malformedListing, None) (inl ()).

Definition unreachableWorld : External :=
  Sample.world (inr "dial tcp 10.0.0.1:6443: connect: connection refused")
    (Sample.listing, None) (inl ()).

(** ** The rest of the provider *)

Section InitService.

Context `{External}.

(** [SetName], [SetVerbose] and [SetProviderName]: methods of
    [terraform_utils.Service], which [Kind] embeds; their source is not
    part of the files in view, so they are parameters. *)
Variable SetName : string → Kind → Kind.
Variable SetVerbose : bool → Kind → Kind.
Variable SetProviderName : string → Kind → Kind.

(** [InitService]: the provider as the call leaves it and the error.
    [GetSupportedService] is called twice; the second lookup of a missing
    key gives a nil [Service], on which [SetName] panics: [None] is the
    panic.  The log lines of both calls are returned. *)
Definition InitService (p : KubernetesProvider) (os : OS)
    (serviceName : string) (verbose' : bool)
  : option (KubernetesProvider * option error) * list string :=
  let '(supported, log1) := GetSupportedService p os in
  match supported !! serviceName with
  | None =>
      (Some (p, Some ("kubernetes: " +:+ serviceName +:+ " not supported resource")),
       log1)
  | Some _ =>
      let '(supported, log2) := GetSupportedService p os in
      match supported !! serviceName with
      | None => (None, (log1 ++ log2)%list)
      | Some service =>
          let service := SetName serviceName service in
          let service := SetVerbose verbose' service in
          let service := SetProviderName (GetName p) service in
          (Some ({| Service := Some service; region := region p;
                    verbose := verbose p |}, None),
           (log1 ++ log2)%list)
      end
  end.

End InitService.

(** ** The overlay, field by field *)

(** The value an optional override leaves in a field: the variable when
    it is set, the old value otherwise. *)
Definition override (value old : string) : string :=
  if Nat.ltb 0 (String.length value) then value else old.

Section OverlayStages.

Context `{External}.

(** The impersonated user (lines 221-224). *)
Definition overlayUser (os : OS) (c : restclient.Config) : restclient.Config :=
  restclient.set_Impersonate_UserName
    (override (Getenv os "KUBECTL_PLUGINS_GLOBAL_FLAG_AS")
       (restclient.UserName (restclient.Impersonate c))) c.

(** The impersonated groups (lines 226-236). *)
Definition overlayGroups (os : OS) (c : restclient.Config)
  : restclient.Config + error :=
  let impersonateGroup := Getenv os "KUBECTL_PLUGINS_GLOBAL_FLAG_AS_GROUP" in
  if Nat.ltb 0 (String.length impersonateGroup) then
    match json_Unmarshal impersonateGroup [] with
    | (_, Some err) =>
        inr ("error parsing global option " +:+ GoString.Quote "--as-group"
             +:+ ": " +:+ err)
    | (groups, None) =>
        inl (if Nat.ltb 0 (length groups)
             then restclient.set_Impersonate_Groups groups c else c)
    end
  else inl c.

(** The three TLS files (lines 239-252). *)
Definition overlayTLS (os : OS) (c : restclient.Config) : restclient.Config :=
  restclient.set_TLS
    {| restclient.ServerName := restclient.ServerName (restclient.TLS c);
       restclient.CertFile :=
         override (Getenv os "KUBECTL_PLUGINS_GLOBAL_FLAG_CLIENT_CERTIFICATE")
           (restclient.CertFile (restclient.TLS c));
       restclient.KeyFile :=
         override (Getenv os "KUBECTL_PLUGINS_GLOBAL_FLAG_CLIENT_KEY")
           (restclient.KeyFile (restclient.TLS c));
       restclient.CAFile :=
         override (Getenv os "KUBECTL_PLUGINS_GLOBAL_FLAG_CERTIFICATE_AUTHORITY")
           (restclient.CAFile (restclient.TLS c)) |} c.

(** The request timeout (lines 265-272). *)
Definition overlayTimeout (os : OS) (c : restclient.Config)
  : restclient.Config + error :=
  let requestTimeout := Getenv os "KUBECTL_PLUGINS_GLOBAL_FLAG_REQUEST_TIMEOUT" in
  if Nat.ltb 0 (String.length requestTimeout) then
    match time.ParseDuration float64_fraction requestTimeout with
    | inr err => inr err
    | inl t => inl (restclient.set_Timeout t c)
    end
  else inl c.

(** Server name, token, user name and password (lines 274-292). *)
Definition overlayRest (os : OS) (c : restclient.Config) : restclient.Config :=
  {| restclient.Host := restclient.Host c;
     restclient.Username :=
       override (Getenv os "KUBECTL_PLUGINS_GLOBAL_FLAG_USERNAME")
         (restclient.Username c);
     restclient.Password :=
       override (Getenv os "KUBECTL_PLUGINS_GLOBAL_FLAG_PASSWORD")
         (restclient.Password c);
     restclient.BearerToken :=
       override (Getenv os "KUBECTL_PLUGINS_GLOBAL_FLAG_TOKEN")
         (restclient.BearerToken c);
     restclient.Impersonate := restclient.Impersonate c;
     restclient.TLS :=
       {| restclient.ServerName :=
            override (Getenv os "KUBECTL_PLUGINS_GLOBAL_FLAG_SERVER")
              (restclient.ServerName (restclient.TLS c));
          restclient.CertFile := restclient.CertFile (restclient.TLS c);
          restclient.KeyFile := restclient.KeyFile (restclient.TLS c);
          restclient.CAFile := restclient.CAFile (restclient.TLS c) |};
     restclient.Timeout := restclient.Timeout c |}.

(** The overlay as the composition of its stages, stopping at the first
    error with the configuration as the stages before it left it. *)
Definition overlay (os : OS) (c : restclient.Config)
  : restclient.Config * option error :=
  let c1 := overlayUser os c in
  match overlayGroups os c1 with
  | inr err => (c1, Some err)
  | inl c2 =>
      let c3 := overlayTLS os c2 in
      match overlayTimeout os c3 with
      | inr err => (c3, Some err)
      | inl c4 => (overlayRest os c4, None)
      end
  end.

End OverlayStages.

(** A group or version holds no [/]. *)
Definition slashFree (s : string) : Prop :=
  GoString.CountByte filepath.slash s = 0%nat.

Section CatalogEntry.

Context `{External}.

(** One round of the loops of [GetSupportedService] seen from one
    discovery entry. *)
Definition GetSupportedService_entry
    (ResourceTypes : gmap string configschema)
    (resources : gmap string Kind) (e : string * metav1.APIResource)
  : gmap string Kind :=
  match schema.ParseGroupVersion e.1 with
  | inr _ => resources
  | inl gv => GetSupportedService_resource ResourceTypes gv resources e.2
  end.

End CatalogEntry.

(** More sample environments and worlds. *)
Definition overridesOS : OS :=
  Sample.linux
    [ ("KUBECTL_PLUGINS_GLOBAL_FLAG_TOKEN", "s3cr3t");
      ("KUBECTL_PLUGINS_GLOBAL_FLAG_REQUEST_TIMEOUT", "1m30s");
      ("KUBECTL_PLUGINS_GLOBAL_FLAG_AS_GROUP",
       "[" +:+ Sample.dq +:+ "admins" +:+ Sample.dq +:+ "]") ].

Definition partialOS : OS :=
  Sample.linux
    [ ("KUBECTL_PLUGINS_GLOBAL_FLAG_CERTIFICATE_AUTHORITY", "/etc/ca.pem");
      ("KUBECTL_PLUGINS_GLOBAL_FLAG_REQUEST_TIMEOUT", "30");
      ("KUBECTL_PLUGINS_GLOBAL_FLAG_TOKEN", "s3cr3t") ].

Definition tenSecondsOS : OS :=
  Sample.linux [("KUBECTL_PLUGINS_GLOBAL_FLAG_REQUEST_TIMEOUT", "10s")].

(** Deployments served under two groups, as clusters of the time did. *)
Definition duplicateListing : list metav1.APIResourceList :=
  [ {| metav1.GroupVersion := "extensions/v1beta1";
       metav1.APIResources := [Sample.deployments] |};
    {| metav1.GroupVersion := "apps/v1";
       metav1.APIResources := [Sample.deployments] |} ].

Definition duplicateWorld : External :=
  Sample.world (inl Sample.baseConfig) (duplicateListing, None) (inl ()).

Definition widerResourceTypes : gmap string unit :=
  <["kubernetes_Lease" := ()]> Sample.resourceTypes.

(** Setters that leave the descriptor alone. *)
Definition keepKind {A : Type} (_ : A) (kind : Kind) : Kind := kind.

(** ** Strings and paths *)

Lemma length_zero_iff_empty (s : string) :
  Nat.ltb 0 (String.length s) = negb (String.eqb s "").
Proof. by destruct s. Qed.

Lemma eqb_empty_false (s : string) : s ≠ "" → String.eqb s "" = false.
Proof. intros Hs. by apply String.eqb_neq. Qed.

Lemma HasPrefix_app (p s : string) : GoString.HasPrefix (p +:+ s) p = true.
Proof.
  induction p as [|c p IH]; simpl; [by destruct s|].
  by destruct (ascii_dec c c).
Qed.

Lemma Contains_app (a sub b : string) :
  GoString.Contains (a +:+ sub +:+ b) sub = true.
Proof.
  induction a as [|c a IH]; simpl.
  - pose proof (HasPrefix_app sub b) as Hp.
    destruct (sub +:+ b); simpl in *; by rewrite Hp.
  - rewrite IH. apply orb_true_r.
Qed.

Lemma Clean_nonempty (path : string) : filepath.Clean path ≠ "".
Proof.
  unfold filepath.Clean.
  destruct (String.eqb path ""); [done|].
  destruct (GoString.HasPrefix path "/"); [by simpl|].
  destruct (String.eqb _ "") eqn:Hbody; [done|].
  by apply String.eqb_neq.
Qed.

Lemma Join_nonempty (elem : list string) :
  (∃ e, e ∈ elem ∧ e ≠ "") → filepath.Join elem ≠ "".
Proof.
  induction elem as [|e elem IH]; intros (x & Hx & Hne).
  - by apply elem_of_nil in Hx.
  - simpl. destruct (String.eqb e "") eqn:He.
    + apply String.eqb_eq in He. subst e.
      apply elem_of_cons in Hx as [->|Hx]; [done|].
      apply IH. eauto.
    + apply Clean_nonempty.
Qed.

(** ** The process environment *)

Lemma Getenv_Setenv_eq (os : OS) (key value : string) :
  Getenv (Setenv os key value) key = value.
Proof. unfold Getenv, Setenv. simpl. by rewrite lookup_insert_eq. Qed.

Lemma Getenv_Setenv_ne (os : OS) (key key' value : string) :
  key ≠ key' → Getenv (Setenv os key value) key' = Getenv os key'.
Proof. intros Hne. unfold Getenv, Setenv. simpl. by rewrite lookup_insert_ne. Qed.

Lemma Getenv_Unsetenv_eq (os : OS) (key : string) :
  Getenv (Unsetenv os key) key = "".
Proof. unfold Getenv, Unsetenv. simpl. by rewrite lookup_delete_eq. Qed.

Lemma Getenv_Unsetenv_ne (os : OS) (key key' : string) :
  key ≠ key' → Getenv (Unsetenv os key) key' = Getenv os key'.
Proof. intros Hne. unfold Getenv, Unsetenv. simpl. by rewrite lookup_delete_ne. Qed.

(** ** Resolution of the kubeconfig location *)

Section Resolution.

Context `{External}.

Lemma kubeconfig_highestPrecedence (os : OS) :
  initClientAndConfig_kubeconfig os = highestPrecedence (kubeconfigSources os).
Proof.
  unfold initClientAndConfig_kubeconfig, kubeconfigSources. simpl.
  fold (platformDefault os).
  rewrite !length_zero_iff_empty.
  destruct (String.eqb (Getenv os "KUBECTL_PLUGINS_GLOBAL_FLAG_CONFIG") "");
    simpl; [|done].
  destruct (String.eqb (Getenv os "KUBECTL_PLUGINS_GLOBAL_FLAG_KUBECONFIG") "");
    simpl; [|done].
  destruct (String.eqb (Getenv os "KUBECONFIG") ""); simpl; [|done].
  destruct (String.eqb (platformDefault os) "") eqn:Hd; [|done].
  by apply String.eqb_eq in Hd.
Qed.

Lemma initClientAndConfig_from_defined (os : OS) (kubeconfig : string) :
  kubeconfig ≠ "" →
  initClientAndConfig_from os kubeconfig ≠ inr errKubeconfigUndefined.
Proof.
  intros Hne. unfold initClientAndConfig_from.
  destruct kubeconfig as [|c k]; [done|]. simpl.
  destruct (configFromPath _ _) as [config|err]; [|by intros [=]].
  destruct (ClientConfig_ClientConfig _) as [client|err]; [|by intros [=]].
  destruct (applyGlobalOptionsToConfig _ _) as [client' [err|]]; by intros [=].
Qed.

Lemma platformDefault_nonempty (os : OS) :
  GOOS os ≠ "windows" → platformDefault os ≠ "".
Proof.
  intros Hos. unfold platformDefault, filepath_Join.
  apply String.eqb_neq in Hos. rewrite Hos.
  apply Join_nonempty. exists ".kube". split; [|done].
  apply elem_of_cons. right. apply elem_of_cons. by left.
Qed.

Lemma kubeconfig_nonempty (os : OS) :
  GOOS os ≠ "windows" → initClientAndConfig_kubeconfig os ≠ "".
Proof.
  intros Hos. pose proof (platformDefault_nonempty os Hos) as Hdef.
  unfold initClientAndConfig_kubeconfig. fold (platformDefault os).
  rewrite !length_zero_iff_empty.
  repeat match goal with
  | |- context [String.eqb ?s ""] =>
      let E := fresh in
      destruct (String.eqb s "") eqn:E; simpl;
      [|by apply String.eqb_neq in E]
  end.
  done.
Qed.



(** C8, on the code: on Windows the variables HOMEDRIVE, HOMEPATH and
    USERPROFILE have no influence on the resolved location; the home
    directory of the platform default is the value of HOME. *)
Theorem initClientAndConfig_windows_home (os : OS) (drive path profile : string) :
  GOOS os = "windows" →
  let os' :=
    Setenv (Setenv (Setenv os "HOMEDRIVE" drive) "HOMEPATH" path)
      "USERPROFILE" profile in
  initClientAndConfig_home os' = Getenv os "HOME" ∧
  initClientAndConfig_kubeconfig os' = initClientAndConfig_kubeconfig os.
Proof.
  intros Hos os'.
  assert (∀ key, key ≠ "HOMEDRIVE" → key ≠ "HOMEPATH" → key ≠ "USERPROFILE" →
                 Getenv os' key = Getenv os key) as Hget.
  { intros key H1 H2 H3. unfold os'.
    by rewrite !Getenv_Setenv_ne. }
  unfold initClientAndConfig_kubeconfig, initClientAndConfig_home, filepath_Join.
  rewrite !Hget by done. done.
Qed.

End Resolution.



Lemma initClientAndConfig_windows_home_witness :
  GOOS (Sample.windows []) = "windows" ∧
  initClientAndConfig_home
    (Setenv (Setenv (Setenv (Sample.windows []) "HOMEDRIVE" "C:")
               "HOMEPATH" "\Users\dev") "USERPROFILE" "C:\Users\dev") = "" ∧
  @initClientAndConfig_kubeconfig Sample.healthy
    (Setenv (Setenv (Setenv (Sample.windows []) "HOMEDRIVE" "C:")
               "HOMEPATH" "\Users\dev") "USERPROFILE" "C:\Users\dev") =
    @initClientAndConfig_kubeconfig Sample.healthy (Sample.windows []).
Proof.
  split; [reflexivity|].
  exact (@initClientAndConfig_windows_home Sample.healthy (Sample.windows [])
           "C:" "\Users\dev" "C:\Users\dev" eq_refl).
Defined.

(** ** The global option overlay *)

Section Overlay.

Context `{External}.

Lemma preserves_skip {A} (part : restclient.Config → A) : preserves part skip.
Proof. done. Qed.

Lemma preserves_ret {A} (part : restclient.Config → A) err :
  preserves part (ret err).
Proof. done. Qed.

Lemma preserves_assign {A} (part : restclient.Config → A) f :
  (∀ c, part (f c) = part c) → preserves part (assign f).
Proof. intros Hf c. apply Hf. Qed.

Lemma preserves_when {A} (part : restclient.Config → A) b s :
  preserves part s → preserves part (when b s).
Proof. by destruct b. Qed.

Lemma preserves_seq {A} (part : restclient.Config → A) a b :
  preserves part a → preserves part b → preserves part (seq a b).
Proof.
  intros Ha Hb c. unfold seq. specialize (Ha c).
  destruct (a c) as [c' [err|]]; simpl in *; [done|].
  by rewrite Hb.
Qed.

Lemma falls_through_skip : falls_through skip.
Proof. done. Qed.

Lemma falls_through_assign f : falls_through (assign f).
Proof. done. Qed.

Lemma falls_through_when b s : falls_through s → falls_through (when b s).
Proof. by destruct b. Qed.

Lemma falls_through_seq a b :
  falls_through a → falls_through b → falls_through (seq a b).
Proof.
  intros Ha Hb c. unfold seq. specialize (Ha c).
  destruct (a c) as [c' [err|]]; simpl in *; [done|]. apply Hb.
Qed.

Lemma when_skip b : when b skip = skip.
Proof. by destruct b. Qed.

Lemma seq_falls_through a b c :
  falls_through a → seq a b c = b (a c).1.
Proof.
  intros Ha. unfold seq. specialize (Ha c).
  destruct (a c) as [c' [err|]]; simpl in *; done.
Qed.

End Overlay.

Create HintDb overlay.

#[export] Hint Resolve preserves_skip preserves_ret preserves_when preserves_seq
  falls_through_skip falls_through_assign falls_through_when falls_through_seq
  : overlay.
#[export] Hint Extern 2 (preserves _ (assign _)) =>
  (apply preserves_assign; intros ?; reflexivity) : overlay.

Section OverlayTheorems.

Context `{External}.

Local Ltac overlay_steps :=
  cbv zeta; repeat first [apply preserves_seq | apply falls_through_seq];
  eauto with overlay.

(** C10: the cluster-name and user-name variables have no effect on the
    overlay: whatever their values, the configuration and the error are
    those obtained with both variables empty. *)
Theorem applyGlobalOptionsToConfig_cluster_user
    (os : OS) (cluster user : string) (config : restclient.Config) :
  applyGlobalOptionsToConfig
    (Setenv (Setenv os "KUBECTL_PLUGINS_GLOBAL_FLAG_CLUSTER" cluster)
       "KUBECTL_PLUGINS_GLOBAL_FLAG_USER" user) config =
  applyGlobalOptionsToConfig
    (Setenv (Setenv os "KUBECTL_PLUGINS_GLOBAL_FLAG_CLUSTER" "")
       "KUBECTL_PLUGINS_GLOBAL_FLAG_USER" "") config.
Proof.
  unfold applyGlobalOptionsToConfig. cbv zeta.
  rewrite !when_skip.
  rewrite !Getenv_Setenv_ne by done.
  reflexivity.
Qed.

(** The statements of the overlay after the impersonation-group one. *)
Lemma applyGlobalOptionsToConfig_groups_frame (os : OS) :
  Getenv os "KUBECTL_PLUGINS_GLOBAL_FLAG_AS_GROUP" = "" →
  preserves (λ c, restclient.Groups (restclient.Impersonate c))
    (applyGlobalOptionsToConfig os).
Proof.
  intros Hg. unfold applyGlobalOptionsToConfig. rewrite Hg. simpl.
  overlay_steps.
  destruct (time.ParseDuration _ _); eauto with overlay.
Qed.

Lemma applyGlobalOptionsToConfig_falls_through (os : OS) :
  Getenv os "KUBECTL_PLUGINS_GLOBAL_FLAG_AS_GROUP" = "" →
  Getenv os "KUBECTL_PLUGINS_GLOBAL_FLAG_REQUEST_TIMEOUT" = "" →
  falls_through (applyGlobalOptionsToConfig os).
Proof.
  intros Hg Ht. unfold applyGlobalOptionsToConfig. rewrite Hg, Ht. simpl.
  overlay_steps.
Qed.

(** With an empty parsed list the impersonation-group statement does what
    it does when the variable is unset. *)
Lemma applyGlobalOptionsToConfig_empty_groups (os : OS) :
  json_Unmarshal (Getenv os "KUBECTL_PLUGINS_GLOBAL_FLAG_AS_GROUP") [] = ([], None) →
  applyGlobalOptionsToConfig os =
  applyGlobalOptionsToConfig (Unsetenv os "KUBECTL_PLUGINS_GLOBAL_FLAG_AS_GROUP").
Proof.
  intros Hjson. unfold applyGlobalOptionsToConfig. cbv zeta.
  rewrite Getenv_Unsetenv_eq, Hjson.
  rewrite !Getenv_Unsetenv_ne by done.
  simpl. by rewrite when_skip.
Qed.


(** C7, on the code: when the request-timeout variable holds
    [notaduration] the overlay returns the error of [time.ParseDuration]
    as it is; the message names neither the option nor its variable. *)
Theorem applyGlobalOptionsToConfig_request_timeout_error
    (os : OS) (config : restclient.Config) :
  Getenv os "KUBECTL_PLUGINS_GLOBAL_FLAG_AS_GROUP" = "" →
  Getenv os "KUBECTL_PLUGINS_GLOBAL_FLAG_REQUEST_TIMEOUT" = "notaduration" →
  let msg := "time: invalid duration " +:+ time.quote "notaduration" in
  (applyGlobalOptionsToConfig os config).2 = Some msg ∧
  GoString.Contains msg "request-timeout" = false ∧
  GoString.Contains msg "REQUEST_TIMEOUT" = false.
Proof.
  intros Hg Ht msg. split; [|by vm_compute].
  unfold applyGlobalOptionsToConfig. cbv zeta. rewrite Hg, Ht.
  change (Nat.ltb 0 (String.length "")) with false.
  change (Nat.ltb 0 (String.length "notaduration")) with true.
  assert (time.ParseDuration float64_fraction "notaduration" = inr msg) as ->
    by reflexivity.
  cbn [when].
  do 7 (rewrite seq_falls_through by eauto with overlay).
  reflexivity.
Qed.

End OverlayTheorems.


Lemma applyGlobalOptionsToConfig_request_timeout_error_witness :
  (@applyGlobalOptionsToConfig Sample.healthy badTimeoutOS Sample.baseConfig).2 =
    Some ("time: invalid duration " +:+ time.quote "notaduration").
Proof.
  exact (proj1 (@applyGlobalOptionsToConfig_request_timeout_error
                  Sample.healthy badTimeoutOS Sample.baseConfig eq_refl eq_refl)).
Defined.

(** ** Catalog building *)

Section Catalog.

Context `{External}.

Implicit Types (ResourceTypes : gmap string configschema)
  (resources : gmap string Kind) (resource : metav1.APIResource)
  (gv : schema.GroupVersion) (name : string) (kind : Kind).

Lemma sets_Has_list (verbs : list string) :
  sets_Has (sets_NewString verbs) "list" = bool_decide ("list" ∈ verbs).
Proof.
  unfold sets_Has, sets_NewString. apply bool_decide_ext.
  by rewrite elem_of_list_to_set.
Qed.

(** One round of the inner loop: an importable resource is stored under
    its plural name, any other leaves the catalog alone. *)
Lemma GetSupportedService_resource_eq ResourceTypes gv resources resource :
  GetSupportedService_resource ResourceTypes gv resources resource =
  if decide (importable ResourceTypes resource)
  then <[metav1.Name resource := kindOf gv resource]> resources
  else resources.
Proof.
  unfold GetSupportedService_resource. rewrite sets_Has_list.
  destruct (decide (importable ResourceTypes resource)) as [[Hin [ty Hty]]|Hnot].
  - destruct (metav1.Verbs resource) as [|verb verbs]; [by apply elem_of_nil in Hin|].
    simpl. rewrite bool_decide_eq_true_2 by done. simpl. by rewrite Hty.
  - destruct (metav1.Verbs resource) as [|verb verbs] eqn:Hverbs; [done|]. simpl.
    destruct (decide ("list" ∈ verb :: verbs)) as [Hin|Hin].
    + rewrite bool_decide_eq_true_2 by done. simpl.
      destruct (ResourceTypes !! _) eqn:Hty; [|done].
      destruct Hnot. split; [by rewrite Hverbs|by eexists].
    + by rewrite bool_decide_eq_false_2.
Qed.

Lemma fold_resource_lookup ResourceTypes gv (rs : list metav1.APIResource) :
  ∀ resources name kind,
  fold_left (GetSupportedService_resource ResourceTypes gv) rs resources !! name
    = Some kind →
  resources !! name = Some kind ∨
  ∃ resource, resource ∈ rs ∧ metav1.Name resource = name ∧
    importable ResourceTypes resource ∧ kind = kindOf gv resource.
Proof.
  induction rs as [|r rs IH]; intros resources name kind Hlook; simpl in *.
  - by left.
  - apply IH in Hlook as [Hlook|(r' & Hin & Hname & Himp & Hkind)].
    + rewrite GetSupportedService_resource_eq in Hlook.
      destruct (decide (importable ResourceTypes r)) as [Himp|]; [|by left].
      destruct (decide (metav1.Name r = name)) as [Hname|Hname].
      * subst name. rewrite lookup_insert_eq in Hlook. injection Hlook as <-.
        right. exists r. split; [apply elem_of_cons; by left|done].
      * rewrite lookup_insert_ne in Hlook by done. by left.
    + right. exists r'. split; [apply elem_of_cons; by right|done].
Qed.

Lemma fold_resource_is_Some ResourceTypes gv (rs : list metav1.APIResource) :
  ∀ resources name,
  (is_Some (resources !! name) ∨
   ∃ resource, resource ∈ rs ∧ metav1.Name resource = name ∧
     importable ResourceTypes resource) →
  is_Some (fold_left (GetSupportedService_resource ResourceTypes gv) rs
             resources !! name).
Proof.
  induction rs as [|r rs IH]; intros resources name Hor; simpl.
  - destruct Hor as [|(r' & Hin & _)]; [done|]. by apply elem_of_nil in Hin.
  - apply IH. rewrite GetSupportedService_resource_eq.
    destruct Hor as [Hsome|(r' & Hin & Hname & Himp)].
    + left. destruct (decide (importable ResourceTypes r)); [|done].
      destruct (decide (metav1.Name r = name)) as [->|Hne].
      * rewrite lookup_insert_eq. by eexists.
      * by rewrite lookup_insert_ne.
    + apply elem_of_cons in Hin as [->|Hin].
      * left. rewrite decide_True by done. subst name.
        rewrite lookup_insert_eq. by eexists.
      * right. by exists r'.
Qed.

Lemma entries_cons (list : metav1.APIResourceList) lists :
  entries (list :: lists) =
  ((pair (metav1.GroupVersion list) <$> metav1.APIResources list)
     ++ entries lists)%list.
Proof. done. Qed.

Lemma elem_of_entries_cons (e : string * metav1.APIResource) list lists :
  e ∈ entries (list :: lists) ↔
  (e.1 = metav1.GroupVersion list ∧ e.2 ∈ metav1.APIResources list) ∨
  e ∈ entries lists.
Proof.
  rewrite entries_cons, elem_of_app, list_elem_of_fmap.
  destruct e as [gvs r]. simpl. split.
  - intros [(r' & [= -> ->] & Hin)|Hin]; [by left|by right].
  - intros [[-> Hin]|Hin]; [left; by exists r|by right].
Qed.

(** One round of the outer loop. *)
Lemma GetSupportedService_list_eq ResourceTypes resources list :
  GetSupportedService_list ResourceTypes resources list =
  match schema.ParseGroupVersion (metav1.GroupVersion list) with
  | inr _ => resources
  | inl gv =>
      fold_left (GetSupportedService_resource ResourceTypes gv)
        (metav1.APIResources list) resources
  end.
Proof.
  unfold GetSupportedService_list.
  destruct (metav1.APIResources list); [|done].
  simpl. by destruct (schema.ParseGroupVersion _).
Qed.

Lemma fold_list_lookup ResourceTypes (lists : list metav1.APIResourceList) :
  ∀ resources name kind,
  fold_left (GetSupportedService_list ResourceTypes) lists resources !! name
    = Some kind →
  resources !! name = Some kind ∨
  ∃ e gv, e ∈ entries lists ∧ metav1.Name e.2 = name ∧
    schema.ParseGroupVersion e.1 = inl gv ∧
    importable ResourceTypes e.2 ∧ kind = kindOf gv e.2.
Proof.
  induction lists as [|list lists IH]; intros resources name kind Hlook;
    simpl in *; [by left|].
  apply IH in Hlook as [Hlook|(e & gv & Hin & Hrest)].
  - rewrite GetSupportedService_list_eq in Hlook.
    destruct (schema.ParseGroupVersion (metav1.GroupVersion list)) as [gv|]
      eqn:Hgv; [|by left].
    apply fold_resource_lookup in Hlook as [Hlook|(r & Hin & Hname & Himp & Hk)];
      [by left|].
    right. exists (metav1.GroupVersion list, r), gv.
    split; [apply elem_of_entries_cons; by left|done].
  - right. exists e, gv. split; [apply elem_of_entries_cons; by right|done].
Qed.

Lemma fold_list_is_Some ResourceTypes (lists : list metav1.APIResourceList) :
  ∀ resources name,
  (is_Some (resources !! name) ∨
   ∃ e gv, e ∈ entries lists ∧ metav1.Name e.2 = name ∧
     schema.ParseGroupVersion e.1 = inl gv ∧ importable ResourceTypes e.2) →
  is_Some (fold_left (GetSupportedService_list ResourceTypes) lists
             resources !! name).
Proof.
  induction lists as [|list lists IH]; intros resources name Hor; simpl.
  - destruct Hor as [|(e & gv & Hin & _)]; [done|]. by apply elem_of_nil in Hin.
  - apply IH. rewrite GetSupportedService_list_eq.
    destruct Hor as [Hsome|(e & gv & Hin & Hname & Hgv & Himp)].
    + left. destruct (schema.ParseGroupVersion _); [|done].
      apply fold_resource_is_Some. by left.
    + apply elem_of_entries_cons in Hin as [[Hgvs Hin]|Hin].
      * left. rewrite <- Hgvs, Hgv. apply fold_resource_is_Some.
        right. by exists e.2.
      * right. by exists e, gv.
Qed.

(** What [GetSupportedService] returns once the three sessions are open. *)
Lemma GetSupportedService_discovered p os lists ResourceTypes :
  discovered p os lists ResourceTypes →
  GetSupportedService p os =
    (fold_left (GetSupportedService_list ResourceTypes) lists ∅, []).
Proof.
  intros (config & cc & dc & provider & Hinit & Hdc & Hlists & Hprov & Hschema).
  unfold GetSupportedService. by rewrite Hinit, Hdc, Hlists, Hprov, Hschema.
Qed.

Lemma NoDup_fmap_inj {A B : Type} (f : A → B) (l : list A) (x y : A) :
  NoDup (f <$> l) → x ∈ l → y ∈ l → f x = f y → x = y.
Proof.
  induction l as [|a l IH]; intros Hnd Hx Hy Hf; [by apply elem_of_nil in Hx|].
  rewrite fmap_cons in Hnd. apply NoDup_cons in Hnd as [Hnotin Hnd].
  apply elem_of_cons in Hx as [->|Hx]; apply elem_of_cons in Hy as [->|Hy].
  - done.
  - destruct Hnotin. rewrite Hf. by apply list_elem_of_fmap_2.
  - destruct Hnotin. rewrite <- Hf. by apply list_elem_of_fmap_2.
  - by apply IH.
Qed.

(** C2, as the code has it: a plural name is a key of the catalog exactly
    when some discovery entry of that name, listed under a group/version
    string that parses, supports [list] and has its normalised kind name
    declared by the schema provider; the [Kind] under the key carries the
    parsed group and version, the original kind name and the namespaced
    flag of such an entry, which is the entry itself when plural names are
    unique in the listing. *)
Theorem GetSupportedService_catalog p os lists ResourceTypes :
  discovered p os lists ResourceTypes →
  let catalog := (GetSupportedService p os).1 in
  (∀ name, is_Some (catalog !! name) ↔
     ∃ e gv, e ∈ entries lists ∧ metav1.Name e.2 = name ∧
       schema.ParseGroupVersion e.1 = inl gv ∧ importable ResourceTypes e.2) ∧
  (∀ name kind, catalog !! name = Some kind →
     ∃ e gv, e ∈ entries lists ∧ metav1.Name e.2 = name ∧
       schema.ParseGroupVersion e.1 = inl gv ∧
       importable ResourceTypes e.2 ∧ kind = kindOf gv e.2) ∧
  (NoDup (metav1.Name ∘ snd <$> entries lists) →
   ∀ e gv, e ∈ entries lists →
     schema.ParseGroupVersion e.1 = inl gv → importable ResourceTypes e.2 →
     catalog !! metav1.Name e.2 = Some (kindOf gv e.2)).
Proof.
  intros Hdisc catalog.
  assert (catalog = fold_left (GetSupportedService_list ResourceTypes) lists ∅)
    as Hcat by (unfold catalog; by rewrite (GetSupportedService_discovered _ _ _ _ Hdisc)).
  assert (∀ name kind, catalog !! name = Some kind →
     ∃ e gv, e ∈ entries lists ∧ metav1.Name e.2 = name ∧
       schema.ParseGroupVersion e.1 = inl gv ∧
       importable ResourceTypes e.2 ∧ kind = kindOf gv e.2) as Hvalue.
  { intros name kind Hlook. rewrite Hcat in Hlook.
    apply fold_list_lookup in Hlook as [Hlook|Hex]; [|done].
    by rewrite lookup_empty in Hlook. }
  assert (∀ name,
     (∃ e gv, e ∈ entries lists ∧ metav1.Name e.2 = name ∧
       schema.ParseGroupVersion e.1 = inl gv ∧ importable ResourceTypes e.2) →
     is_Some (catalog !! name)) as Hkey.
  { intros name Hex. rewrite Hcat. apply fold_list_is_Some. by right. }
  split; [|split; [done|]].
  - intros name. split; [|apply Hkey].
    intros [kind Hlook]. apply Hvalue in Hlook as (e & gv & ? & ? & ? & ? & _).
    by exists e, gv.
  - intros Hnodup e gv Hin Hgv Himp.
    destruct (Hkey (metav1.Name e.2)) as [kind Hlook]; [by exists e, gv|].
    rewrite Hlook.
    apply Hvalue in Hlook as (e' & gv' & Hin' & Hname & Hgv' & _ & ->).
    assert (e' = e) as -> by (by apply (NoDup_fmap_inj _ _ _ _ Hnodup)).
    congruence.
Qed.


(** C4: when the discovery client cannot be created, or the request for
    the server's preferred resources fails, or the schema-provider session
    cannot be opened, [GetSupportedService] returns the empty catalog; the
    error is logged, not returned. *)
Theorem GetSupportedService_degrades p os config cc :
  initClientAndConfig os = inl (config, cc) →
  (∃ err, NewDiscoveryClientForConfig config = inr err) ∨
  (∃ dc lists err, NewDiscoveryClientForConfig config = inl dc ∧
     ServerPreferredResources dc = (lists, Some err)) ∨
  (∃ dc lists err, NewDiscoveryClientForConfig config = inl dc ∧
     ServerPreferredResources dc = (lists, None) ∧
     NewProviderWrapper "kubernetes" (String.eqb (verbose p) "true") = inr err) →
  ∃ err, GetSupportedService p os = (∅, [err]).
Proof.
  intros Hinit Hfail. unfold GetSupportedService. rewrite Hinit.
  destruct Hfail as [(err & Hdc)|[(dc & lists & err & Hdc & Hlists)|
                                  (dc & lists & err & Hdc & Hlists & Hprov)]];
    exists err.
  - by rewrite Hdc.
  - by rewrite Hdc, Hlists.
  - by rewrite Hdc, Hlists, Hprov.
Qed.

(** C9, as the code has it: a failure of [initClientAndConfig] is not
    surfaced by [GetSupportedService], whose result has no error
    component: it returns the empty catalog and logs nothing. *)
Theorem GetSupportedService_config_failure p os err :
  initClientAndConfig os = inr err →
  GetSupportedService p os = (∅, []).
Proof. intros Hinit. unfold GetSupportedService. by rewrite Hinit. Qed.

End Catalog.

Lemma sample_discovered :
  @discovered Sample.healthy Sample.provider sampleOS
    Sample.listing Sample.resourceTypes.
Proof. do 4 eexists. repeat split; by vm_compute. Defined.

Lemma GetSupportedService_catalog_witness :
  (@GetSupportedService Sample.healthy Sample.provider sampleOS).1 !! "pods" =
    Some {| Group := ""; Version := "v1"; Name := "Pod"; Namespaced := true |} ∧
  (@GetSupportedService Sample.healthy Sample.provider sampleOS).1 !! "deployments" =
    Some {| Group := "apps"; Version := "v1"; Name := "Deployment";
            Namespaced := true |}.
Proof.
  destruct (@GetSupportedService_catalog Sample.healthy Sample.provider sampleOS
              Sample.listing Sample.resourceTypes sample_discovered)
    as (_ & _ & Hunique).
  assert (NoDup (metav1.Name ∘ snd <$> entries Sample.listing)) as Hnodup
    by (apply (bool_decide_unpack _); by vm_compute).
  split.
  - apply (Hunique Hnodup ("v1", Sample.pods)
             {| schema.Group := ""; schema.Version := "v1" |}).
    + apply (bool_decide_unpack _). by vm_compute.
    + reflexivity.
    + split; [apply (bool_decide_unpack _); by vm_compute|by eexists].
  - apply (Hunique Hnodup ("apps/v1", Sample.deployments)
             {| schema.Group := "apps"; schema.Version := "v1" |}).
    + apply (bool_decide_unpack _). by vm_compute.
    + reflexivity.
    + split; [apply (bool_decide_unpack _); by vm_compute|by eexists].
Defined.

(** C2 as stated fails on a group/version string that does not parse: the
    entry supports [list] and the schema provider declares its kind, and
    the catalog does not hold it. *)
Lemma GetSupportedService_catalog_counterexample :
  @discovered malformedWorld Sample.provider sampleOS
    Sample.malformedListing Sample.resourceTypes ∧
  ("apps/v1/extra", Sample.deployments) ∈ entries Sample.malformedListing ∧
  @importable malformedWorld Sample.resourceTypes Sample.deployments ∧
  (@GetSupportedService malformedWorld Sample.provider sampleOS).1
    !! "deployments" = None.
Proof.
  split; [|split; [|split]].
  - do 4 eexists. repeat split; by vm_compute.
  - apply (bool_decide_unpack _). by vm_compute.
  - split; [apply (bool_decide_unpack _); by vm_compute|by eexists].
  - by vm_compute.
Qed.


Lemma GetSupportedService_degrades_witness :
  @GetSupportedService unreachableWorld Sample.provider sampleOS =
    (∅, ["dial tcp 10.0.0.1:6443: connect: connection refused"]).
Proof.
  destruct (@GetSupportedService_degrades unreachableWorld Sample.provider sampleOS
              Sample.baseConfig
              (clientcmd.NewDefaultClientConfig "current-context: dev"
                 {| clientcmd.Context_Namespace := "" |}))
    as [err Hres].
  - reflexivity.
  - left. by eexists.
  - rewrite Hres. revert Hres. vm_compute. by intros [= ->].
Defined.

(** C9 as stated fails: the kubeconfig cannot be loaded, resolution fails,
    and catalog building returns the empty catalog. *)
Lemma GetSupportedService_config_failure_counterexample :
  (∃ err, @initClientAndConfig Sample.healthy missingKubeconfigOS = inr err) ∧
  @GetSupportedService Sample.healthy Sample.provider missingKubeconfigOS = (∅, []).
Proof. split; [eexists|]; by vm_compute. Qed.

Lemma GetSupportedService_config_failure_witness :
  @GetSupportedService Sample.healthy Sample.provider badTimeoutHomeOS = (∅, []).
Proof.
  apply (@GetSupportedService_config_failure Sample.healthy Sample.provider
           badTimeoutHomeOS
           ("error processing global plugin options: " +:+
            "time: invalid duration " +:+ time.quote "soon")).
  reflexivity.
Defined.

(** ** The overlay, stage by stage *)

Section OverlayStagesTheorems.

Context `{External}.

Lemma when_assign_eq b f c : when b (assign f) c = (if b then f c else c, None).
Proof. by destruct b. Qed.

Lemma when_assign_fst b f c : (when b (assign f) c).1 = if b then f c else c.
Proof. by destruct b. Qed.

Lemma when_skip_fst b c : (when b skip c).1 = c.
Proof. by destruct b. Qed.

Lemma override_override (v old : string) :
  override v (override v old) = override v old.
Proof. unfold override. by destruct (Nat.ltb 0 (String.length v)). Qed.

Local Ltac split_overrides :=
  repeat match goal with
  | |- context [Nat.ltb 0 ?n] => destruct (Nat.ltb 0 n)
  end.

Local Ltac abstract_env os :=
  repeat match goal with
  | |- context [Getenv os ?k] =>
      let v := fresh "v" in
      let Hv := fresh "Hv" in
      remember (Getenv os k) as v eqn:Hv; clear Hv
  end.

(** The statements of [applyGlobalOptionsToConfig], run in order, compute
    the composition of the stages. *)
Lemma applyGlobalOptionsToConfig_overlay (os : OS) (c : restclient.Config) :
  applyGlobalOptionsToConfig os c = overlay os c.
Proof.
  unfold applyGlobalOptionsToConfig, overlay. cbv zeta.
  match goal with
  | |- seq _ (seq _ (seq _ (seq _ (seq _ (seq _ (seq _ (seq _ ?rest))))))) _ = _ =>
      assert (∀ c4, rest c4 = (overlayRest os c4, None)) as Hrest
  end.
  { intros c4.
    do 3 (rewrite seq_falls_through by eauto with overlay).
    rewrite when_assign_eq, !when_assign_fst. f_equal.
    unfold overlayRest, override.
    destruct c4 as [? ? ? ? ? [? ? ? ?] ?]. split_overrides; reflexivity. }
  match goal with
  | |- seq _ (seq _ ?tail) _ = _ =>
      assert (∀ c2, tail c2 =
                match overlayTimeout os (overlayTLS os c2) with
                | inr err => (overlayTLS os c2, Some err)
                | inl c4 => (overlayRest os c4, None)
                end) as Htail
  end.
  { intros c2.
    do 5 (rewrite seq_falls_through by eauto with overlay).
    rewrite !when_skip_fst, !when_assign_fst.
    match goal with
    | |- _ ?c3 = _ => assert (c3 = overlayTLS os c2) as ->
    end.
    { unfold overlayTLS, override.
      destruct c2 as [? ? ? ? ? [? ? ? ?] ?]. split_overrides; reflexivity. }
    generalize (overlayTLS os c2). clear c2. intros c3.
    unfold overlayTimeout.
    destruct (Nat.ltb 0 (String.length
      (Getenv os "KUBECTL_PLUGINS_GLOBAL_FLAG_REQUEST_TIMEOUT"))); cbn [when].
    - destruct (time.ParseDuration _ _) as [t|err]; [|reflexivity].
      rewrite seq_falls_through by eauto with overlay. apply Hrest.
    - rewrite seq_falls_through by eauto with overlay. apply Hrest. }
  rewrite seq_falls_through by eauto with overlay.
  rewrite when_assign_fst.
  match goal with
  | |- _ ?c1 = _ => assert (c1 = overlayUser os c) as ->
  end.
  { unfold overlayUser, override.
    destruct c as [? ? ? ? [? ?] ? ?]. split_overrides; reflexivity. }
  generalize (overlayUser os c). clear c. intros c1.
  unfold overlayGroups.
  destruct (Nat.ltb 0 (String.length
    (Getenv os "KUBECTL_PLUGINS_GLOBAL_FLAG_AS_GROUP"))); cbn [when].
  - destruct (json_Unmarshal _ _) as [groups [err|]]; [reflexivity|].
    rewrite seq_falls_through by eauto with overlay.
    rewrite when_assign_fst. apply Htail.
  - rewrite seq_falls_through by eauto with overlay. apply Htail.
Qed.

Lemma overlay_idempotent (os : OS) (c : restclient.Config) :
  overlay os (overlay os c).1 = overlay os c.
Proof.
  destruct c as [host username password token [user groups] [server cert key ca] timeout].
  unfold overlay, overlayGroups, overlayTimeout, overlayUser, overlayTLS, overlayRest.
  cbv zeta. abstract_env os.
  repeat match goal with
  | |- context [json_Unmarshal ?g ?v] =>
      let E := fresh "Hjson" in
      destruct (json_Unmarshal g v) as [? [?|]] eqn:E
  | |- context [time.ParseDuration ?f ?t] =>
      let E := fresh "Hparse" in
      destruct (time.ParseDuration f t) as [?|?] eqn:E
  end;
  repeat match goal with
  | |- context [Nat.ltb 0 (@length string ?l)] =>
      let E := fresh "Hlen" in destruct (Nat.ltb 0 (@length string l)) eqn:E
  | |- context [if Nat.ltb 0 (String.length ?s) then _ else _] =>
      let E := fresh "Hset" in destruct (Nat.ltb 0 (String.length s)) eqn:E
  end;
  simpl; rewrite ?override_override; reflexivity.
Qed.

(** X3: the overlay applied to its own result changes nothing more and
    returns the same error: every override replaces a field by a value
    that depends on the environment alone. *)
Theorem applyGlobalOptionsToConfig_idempotent (os : OS) (c : restclient.Config) :
  applyGlobalOptionsToConfig os (applyGlobalOptionsToConfig os c).1 =
  applyGlobalOptionsToConfig os c.
Proof. rewrite !applyGlobalOptionsToConfig_overlay. apply overlay_idempotent. Qed.

(** X1: the overlay fails exactly when the impersonation-group variable is set
    and [json.Unmarshal] rejects it, or the request-timeout variable is set
    and [time.ParseDuration] rejects it; no other variable and no field of
    the base configuration can make it fail. *)
Theorem applyGlobalOptionsToConfig_fails_iff (os : OS) (c : restclient.Config) :
  is_Some (applyGlobalOptionsToConfig os c).2 ↔
  (Getenv os "KUBECTL_PLUGINS_GLOBAL_FLAG_AS_GROUP" ≠ "" ∧
   is_Some (json_Unmarshal (Getenv os "KUBECTL_PLUGINS_GLOBAL_FLAG_AS_GROUP") []).2) ∨
  (Getenv os "KUBECTL_PLUGINS_GLOBAL_FLAG_REQUEST_TIMEOUT" ≠ "" ∧
   ∃ err, time.ParseDuration float64_fraction
            (Getenv os "KUBECTL_PLUGINS_GLOBAL_FLAG_REQUEST_TIMEOUT") = inr err).
Proof.
  rewrite applyGlobalOptionsToConfig_overlay.
  unfold overlay, overlayGroups, overlayTimeout. cbv zeta.
  rewrite !length_zero_iff_empty.
  destruct (String.eqb (Getenv os "KUBECTL_PLUGINS_GLOBAL_FLAG_AS_GROUP") "")
    eqn:Hg;
    [apply String.eqb_eq in Hg|apply String.eqb_neq in Hg]; simpl.
  all: destruct (String.eqb (Getenv os "KUBECTL_PLUGINS_GLOBAL_FLAG_REQUEST_TIMEOUT") "")
    eqn:Ht;
    [apply String.eqb_eq in Ht|apply String.eqb_neq in Ht]; simpl.
  all: try destruct (json_Unmarshal _ _) as [groups [err|]]; simpl.
  all: try destruct (time.ParseDuration _ _) as [t|err']; simpl.
  all: split; [intros [e He]|intros [[Hne Hs]|[Hne [e He]]]];
    try done; try (by destruct Hs); eauto.
Qed.

(** X2: when the overlay succeeds, every field holds its override when the
    variable is set and its old value otherwise; [Host] is never written;
    the group list is replaced only by a non-empty parsed list. *)
Theorem applyGlobalOptionsToConfig_success
    (os : OS) (c c' : restclient.Config) :
  applyGlobalOptionsToConfig os c = (c', None) →
  restclient.Host c' = restclient.Host c ∧
  restclient.UserName (restclient.Impersonate c') =
    override (Getenv os "KUBECTL_PLUGINS_GLOBAL_FLAG_AS")
      (restclient.UserName (restclient.Impersonate c)) ∧
  restclient.Groups (restclient.Impersonate c') =
    (let impersonateGroup := Getenv os "KUBECTL_PLUGINS_GLOBAL_FLAG_AS_GROUP" in
     let groups := (json_Unmarshal impersonateGroup []).1 in
     if Nat.ltb 0 (String.length impersonateGroup) && Nat.ltb 0 (length groups)
     then groups else restclient.Groups (restclient.Impersonate c)) ∧
  restclient.CAFile (restclient.TLS c') =
    override (Getenv os "KUBECTL_PLUGINS_GLOBAL_FLAG_CERTIFICATE_AUTHORITY")
      (restclient.CAFile (restclient.TLS c)) ∧
  restclient.CertFile (restclient.TLS c') =
    override (Getenv os "KUBECTL_PLUGINS_GLOBAL_FLAG_CLIENT_CERTIFICATE")
      (restclient.CertFile (restclient.TLS c)) ∧
  restclient.KeyFile (restclient.TLS c') =
    override (Getenv os "KUBECTL_PLUGINS_GLOBAL_FLAG_CLIENT_KEY")
      (restclient.KeyFile (restclient.TLS c)) ∧
  restclient.Timeout c' =
    (let requestTimeout := Getenv os "KUBECTL_PLUGINS_GLOBAL_FLAG_REQUEST_TIMEOUT" in
     match time.ParseDuration float64_fraction requestTimeout with
     | inl t => if Nat.ltb 0 (String.length requestTimeout) then t
                else restclient.Timeout c
     | inr _ => restclient.Timeout c
     end) ∧
  restclient.ServerName (restclient.TLS c') =
    override (Getenv os "KUBECTL_PLUGINS_GLOBAL_FLAG_SERVER")
      (restclient.ServerName (restclient.TLS c)) ∧
  restclient.BearerToken c' =
    override (Getenv os "KUBECTL_PLUGINS_GLOBAL_FLAG_TOKEN")
      (restclient.BearerToken c) ∧
  restclient.Username c' =
    override (Getenv os "KUBECTL_PLUGINS_GLOBAL_FLAG_USERNAME")
      (restclient.Username c) ∧
  restclient.Password c' =
    override (Getenv os "KUBECTL_PLUGINS_GLOBAL_FLAG_PASSWORD")
      (restclient.Password c).
Proof.
  rewrite applyGlobalOptionsToConfig_overlay.
  destruct c as [host username password token [user groups] [server cert key ca] timeout].
  unfold overlay, overlayGroups, overlayTimeout, overlayUser, overlayTLS, overlayRest.
  cbv zeta. abstract_env os.
  repeat match goal with
  | |- context [json_Unmarshal ?g ?v] =>
      destruct (json_Unmarshal g v) as [? [?|]]
  | |- context [time.ParseDuration ?f ?t] =>
      destruct (time.ParseDuration f t) as [?|?]
  end;
  simpl;
  repeat match goal with
  | |- context [Nat.ltb 0 (@length string ?l)] =>
      destruct (Nat.ltb 0 (@length string l))
  | |- context [if Nat.ltb 0 (String.length ?s) then _ else _] =>
      destruct (Nat.ltb 0 (String.length s))
  end;
  simpl; intros [= <-]; simpl; repeat split; reflexivity.
Qed.


(** X5: with the request-timeout variable holding [10s] (and no
    impersonation groups to parse) the overlay succeeds and the timeout is
    ten seconds. *)
Theorem applyGlobalOptionsToConfig_ten_seconds (os : OS) (c : restclient.Config) :
  Getenv os "KUBECTL_PLUGINS_GLOBAL_FLAG_AS_GROUP" = "" →
  Getenv os "KUBECTL_PLUGINS_GLOBAL_FLAG_REQUEST_TIMEOUT" = "10s" →
  (applyGlobalOptionsToConfig os c).2 = None ∧
  restclient.Timeout (applyGlobalOptionsToConfig os c).1 = (10 * time.Second)%Z.
Proof.
  intros Hg Ht. rewrite applyGlobalOptionsToConfig_overlay.
  unfold overlay, overlayGroups, overlayTimeout. cbv zeta.
  rewrite Hg, Ht.
  change (time.ParseDuration float64_fraction "10s") with
    (inl 10000000000%Z : time.Duration + error).
  simpl. by split.
Qed.

End OverlayStagesTheorems.

Lemma applyGlobalOptionsToConfig_success_witness :
  restclient.BearerToken
    (@applyGlobalOptionsToConfig Sample.healthy overridesOS Sample.baseConfig).1 =
    "s3cr3t" ∧
  restclient.Timeout
    (@applyGlobalOptionsToConfig Sample.healthy overridesOS Sample.baseConfig).1 =
    90000000000%Z ∧
  restclient.Groups (restclient.Impersonate
    (@applyGlobalOptionsToConfig Sample.healthy overridesOS Sample.baseConfig).1) =
    ["admins"].
Proof.
  assert (@applyGlobalOptionsToConfig Sample.healthy overridesOS Sample.baseConfig =
          ((@applyGlobalOptionsToConfig Sample.healthy overridesOS
              Sample.baseConfig).1, None)) as Hok by (by vm_compute).
  destruct (@applyGlobalOptionsToConfig_success Sample.healthy overridesOS
              Sample.baseConfig _ Hok)
    as (_ & _ & Hgroups & _ & _ & _ & Htimeout & _ & Htoken & _).
  rewrite Hgroups, Htimeout, Htoken. clear.
  vm_compute. repeat split; reflexivity.
Defined.


Lemma applyGlobalOptionsToConfig_ten_seconds_witness :
  restclient.Timeout
    (@applyGlobalOptionsToConfig Sample.healthy tenSecondsOS Sample.baseConfig).1 =
    10000000000%Z.
Proof.
  apply (@applyGlobalOptionsToConfig_ten_seconds Sample.healthy tenSecondsOS
           Sample.baseConfig); by vm_compute.
Defined.

(** ** The catalog, entry by entry *)

Section CatalogEntries.

Context `{External}.

Implicit Types (ResourceTypes : gmap string configschema)
  (resources : gmap string Kind) (e : string * metav1.APIResource).

Lemma fold_entries ResourceTypes (lists : list metav1.APIResourceList) :
  ∀ resources,
  fold_left (GetSupportedService_list ResourceTypes) lists resources =
  fold_left (GetSupportedService_entry ResourceTypes) (entries lists) resources.
Proof.
  induction lists as [|l lists IH]; intros resources; [done|].
  rewrite entries_cons, fold_left_app. simpl. rewrite IH. f_equal.
  rewrite GetSupportedService_list_eq.
  generalize (metav1.APIResources l). intros rs. revert resources.
  induction rs as [|r rs IHrs]; intros resources; simpl.
  - by destruct (schema.ParseGroupVersion _).
  - unfold GetSupportedService_entry at 2. simpl.
    destruct (schema.ParseGroupVersion (metav1.GroupVersion l)) as [gv|err] eqn:Hgv.
    + apply IHrs.
    + apply IHrs.
Qed.

(** An entry is accepted by the loops. *)
Lemma GetSupportedService_entry_eq ResourceTypes resources e :
  GetSupportedService_entry ResourceTypes resources e =
  match schema.ParseGroupVersion e.1 with
  | inl gv =>
      if decide (importable ResourceTypes e.2)
      then <[metav1.Name e.2 := kindOf gv e.2]> resources else resources
  | inr _ => resources
  end.
Proof.
  unfold GetSupportedService_entry.
  destruct (schema.ParseGroupVersion e.1); [|done].
  apply GetSupportedService_resource_eq.
Qed.

Lemma fold_entry_keep ResourceTypes (post : list (string * metav1.APIResource)) :
  ∀ resources name kind,
  resources !! name = Some kind →
  (∀ e gv, e ∈ post → metav1.Name e.2 = name →
           schema.ParseGroupVersion e.1 = inl gv → ¬ importable ResourceTypes e.2) →
  fold_left (GetSupportedService_entry ResourceTypes) post resources !! name
    = Some kind.
Proof.
  induction post as [|e post IH]; intros resources name kind Hlook Hlater; [done|].
  simpl. apply IH.
  - rewrite GetSupportedService_entry_eq.
    destruct (schema.ParseGroupVersion e.1) as [gv|] eqn:Hgv; [|done].
    destruct (decide (importable ResourceTypes e.2)) as [Himp|]; [|done].
    destruct (decide (metav1.Name e.2 = name)) as [Hname|Hname].
    + destruct (Hlater e gv); [apply elem_of_cons; by left|done..].
    + by rewrite lookup_insert_ne.
  - intros e' gv' Hin. apply Hlater. apply elem_of_cons. by right.
Qed.

(** X6: when several entries share a plural name, the catalog holds the last
    one the loops accept: a later entry replaces an earlier one under the
    same key. *)
Theorem GetSupportedService_last_wins p os lists ResourceTypes
    (pre post : list (string * metav1.APIResource)) e gv :
  discovered p os lists ResourceTypes →
  entries lists = (pre ++ e :: post)%list →
  schema.ParseGroupVersion e.1 = inl gv →
  importable ResourceTypes e.2 →
  (∀ e' gv', e' ∈ post → metav1.Name e'.2 = metav1.Name e.2 →
     schema.ParseGroupVersion e'.1 = inl gv' → ¬ importable ResourceTypes e'.2) →
  (GetSupportedService p os).1 !! metav1.Name e.2 = Some (kindOf gv e.2).
Proof.
  intros Hdisc Hsplit Hgv Himp Hlater.
  rewrite (GetSupportedService_discovered _ _ _ _ Hdisc). simpl.
  rewrite fold_entries, Hsplit, fold_left_app. simpl.
  apply fold_entry_keep; [|done].
  rewrite GetSupportedService_entry_eq, Hgv.
  rewrite decide_True by done. apply lookup_insert_eq.
Qed.

Lemma fold_list_unique ResourceTypes (lists : list metav1.APIResourceList) e gv :
  NoDup (metav1.Name ∘ snd <$> entries lists) →
  e ∈ entries lists →
  schema.ParseGroupVersion e.1 = inl gv →
  importable ResourceTypes e.2 →
  fold_left (GetSupportedService_list ResourceTypes) lists ∅ !! metav1.Name e.2
    = Some (kindOf gv e.2).
Proof.
  intros Hnodup Hin Hgv Himp.
  destruct (fold_list_is_Some ResourceTypes lists ∅ (metav1.Name e.2))
    as [kind Hlook]; [right; by exists e, gv|].
  rewrite Hlook.
  apply fold_list_lookup in Hlook as [Hlook|(e' & gv' & Hin' & Hname & Hgv' & _ & ->)].
  - by rewrite lookup_empty in Hlook.
  - assert (e' = e) as -> by (by apply (NoDup_fmap_inj _ _ _ _ Hnodup)).
    congruence.
Qed.

(** X7: with plural names unique in the listing, the catalog does not depend
    on the order in which discovery returns the groups. *)
Theorem GetSupportedService_order_irrelevant ResourceTypes
    (lists lists' : list metav1.APIResourceList) :
  lists ≡ₚ lists' →
  NoDup (metav1.Name ∘ snd <$> entries lists) →
  fold_left (GetSupportedService_list ResourceTypes) lists ∅ =
  fold_left (GetSupportedService_list ResourceTypes) lists' ∅.
Proof.
  intros Hperm Hnodup.
  assert (entries lists ≡ₚ entries lists') as Hentries
    by (unfold entries; by rewrite Hperm).
  assert (NoDup (metav1.Name ∘ snd <$> entries lists')) as Hnodup'
    by (by rewrite <- Hentries).
  assert (∀ ls ls' : list metav1.APIResourceList,
            entries ls ≡ₚ entries ls' →
            NoDup (metav1.Name ∘ snd <$> entries ls') →
            ∀ name kind,
              fold_left (GetSupportedService_list ResourceTypes) ls ∅ !! name
                = Some kind →
              fold_left (GetSupportedService_list ResourceTypes) ls' ∅ !! name
                = Some kind) as Hstep.
  { intros ls ls' Hp Hnd name kind Hlook.
    apply fold_list_lookup in Hlook
      as [Hlook|(e & gv & Hin & <- & Hgv & Himp & ->)].
    - by rewrite lookup_empty in Hlook.
    - apply fold_list_unique; [done| |done..]. by rewrite <- Hp. }
  apply map_eq. intros name. apply option_eq. intros kind. split.
  - by apply Hstep.
  - by apply Hstep.
Qed.

(** X8: declaring more types in the schema provider never removes a key from
    the catalog. *)
Theorem GetSupportedService_schema_monotone
    (ResourceTypes ResourceTypes' : gmap string configschema)
    (lists : list metav1.APIResourceList) (name : string) :
  ResourceTypes ⊆ ResourceTypes' →
  is_Some (fold_left (GetSupportedService_list ResourceTypes) lists ∅ !! name) →
  is_Some (fold_left (GetSupportedService_list ResourceTypes') lists ∅ !! name).
Proof.
  intros Hsub [kind Hlook].
  apply fold_list_lookup in Hlook
    as [Hlook|(e & gv & Hin & Hname & Hgv & [Hlist Hty] & _)].
  - by rewrite lookup_empty in Hlook.
  - apply fold_list_is_Some. right. exists e, gv.
    repeat split; try done. by eapply lookup_weaken_is_Some.
Qed.

(** X9: at most one line is logged, and whenever a line is logged the catalog
    is empty. *)
Theorem GetSupportedService_log p os :
  (length (GetSupportedService p os).2 ≤ 1)%nat ∧
  ((GetSupportedService p os).2 ≠ [] → (GetSupportedService p os).1 = ∅).
Proof.
  unfold GetSupportedService.
  destruct (initClientAndConfig os) as [[config cc]|err];
    [|split; [simpl; lia|done]].
  destruct (NewDiscoveryClientForConfig config) as [dc|err];
    [|split; [simpl; lia|done]].
  destruct (ServerPreferredResources dc) as [lists [err|]];
    [split; [simpl; lia|done]|].
  destruct (NewProviderWrapper _ _) as [provider|err];
    split; solve [simpl; lia|done].
Qed.

End CatalogEntries.

(** ** Group and version of a catalog entry *)

Lemma cut_cons (c : ascii) (s : string) :
  schema.cut (String c s) =
  if ascii_dec c filepath.slash then (EmptyString, s)
  else let '(a, b) := schema.cut s in (String c a, b).
Proof. reflexivity. Qed.

Lemma CountByte_cons (sep c : ascii) (s : string) :
  GoString.CountByte sep (String c s) =
  ((if ascii_dec sep c then 1 else 0) + GoString.CountByte sep s)%nat.
Proof. reflexivity. Qed.

Lemma cut_spec (s g v : string) :
  schema.cut s = (g, v) →
  slashFree g ∧
  (GoString.CountByte filepath.slash s ≠ 0%nat →
   s = g +:+ "/" +:+ v ∧
   S (GoString.CountByte filepath.slash v) = GoString.CountByte filepath.slash s).
Proof.
  revert g v. induction s as [|c s IH]; intros g v Hcut.
  - injection Hcut as <- <-. by split.
  - rewrite cut_cons in Hcut. unfold slashFree. rewrite CountByte_cons.
    destruct (ascii_dec c filepath.slash) as [->|Hc].
    + injection Hcut as <- <-. split; [reflexivity|]. intros _.
      destruct (ascii_dec filepath.slash filepath.slash); [|done]. by split.
    + destruct (schema.cut s) as [g' v'] eqn:Hs. injection Hcut as <- <-.
      destruct (IH g' v' eq_refl) as [Hfree Hrest].
      rewrite CountByte_cons.
      destruct (ascii_dec filepath.slash c) as [Heq|_]; [congruence|].
      split; [exact Hfree|]. intros Hcount. destruct (Hrest Hcount) as [-> Hv].
      by split.
Qed.

Lemma ParseGroupVersion_spec (s : string) (gv : schema.GroupVersion) :
  schema.ParseGroupVersion s = inl gv →
  slashFree (schema.Group gv) ∧ slashFree (schema.Version gv) ∧
  (s = "/" ∨ s = schema.Version gv ∨
   s = schema.Group gv +:+ "/" +:+ schema.Version gv).
Proof.
  unfold schema.ParseGroupVersion.
  destruct (Nat.eqb (String.length s) 0) eqn:Hlen; simpl.
  { intros [= <-]. apply Nat.eqb_eq in Hlen. destruct s; [|done].
    repeat split; auto. }
  destruct (String.eqb s "/") eqn:Hslash.
  { intros [= <-]. apply String.eqb_eq in Hslash. repeat split; auto. }
  destruct (GoString.CountByte filepath.slash s) as [|[|n]] eqn:Hcount.
  - intros [= <-]. simpl. repeat split; auto.
  - destruct (schema.cut s) as [g v] eqn:Hcut. intros [= <-]. simpl.
    destruct (cut_spec _ _ _ Hcut) as [Hg Hrest].
    destruct Hrest as [Hs Hv]; [by rewrite Hcount|].
    rewrite Hcount in Hv. injection Hv as Hv. repeat split; auto.
  - done.
Qed.

Section CatalogGroupVersion.

Context `{External}.

(** X10: every [Kind] of the catalog has a group and a version free of [/],
    and they are the pieces of the group/version string of a discovery
    entry of that name: the string is the version alone, or group, [/] and
    version (or the lone [/], which gives both empty). *)
Theorem GetSupportedService_group_version p os lists ResourceTypes name kind :
  discovered p os lists ResourceTypes →
  (GetSupportedService p os).1 !! name = Some kind →
  slashFree (Group kind) ∧ slashFree (Version kind) ∧
  ∃ e, e ∈ entries lists ∧ metav1.Name e.2 = name ∧
       Name kind = metav1.Kind e.2 ∧ Namespaced kind = metav1.Namespaced e.2 ∧
       (e.1 = "/" ∨ e.1 = Version kind ∨
        e.1 = Group kind +:+ "/" +:+ Version kind).
Proof.
  intros Hdisc Hlook.
  rewrite (GetSupportedService_discovered _ _ _ _ Hdisc) in Hlook. simpl in Hlook.
  apply fold_list_lookup in Hlook as [Hlook|(e & gv & Hin & Hname & Hgv & _ & ->)].
  - by rewrite lookup_empty in Hlook.
  - destruct (ParseGroupVersion_spec _ _ Hgv) as (Hg & Hv & Hs).
    split; [done|]. split; [done|]. by exists e.
Qed.

End CatalogGroupVersion.

(** ** Failures of [initClientAndConfig] *)

Section InitFailures.

Context `{External}.

Lemma append_empty_r (s : string) : s +:+ "" = s.
Proof.
  induction s as [|c s IH]; [done|].
  change (String c s +:+ "") with (String c (s +:+ "")). by rewrite IH.
Qed.

Lemma append_assoc (a b c : string) : (a +:+ b) +:+ c = a +:+ (b +:+ c).
Proof.
  induction a as [|x a IH]; [done|].
  change (String x ((a +:+ b) +:+ c) = String x (a +:+ (b +:+ c))). by rewrite IH.
Qed.

Lemma Contains_suffix (a sub : string) : GoString.Contains (a +:+ sub) sub = true.
Proof.
  pose proof (Contains_app a sub "") as Hc.
  by rewrite append_empty_r in Hc.
Qed.

(** X11: on the Unix targets the guard of line 173 never fires:
    [initClientAndConfig] does not return its error, whatever the
    environment. *)
Theorem initClientAndConfig_never_undefined (os : OS) :
  GOOS os ≠ "windows" →
  initClientAndConfig os ≠ inr errKubeconfigUndefined.
Proof.
  intros Hos. unfold initClientAndConfig.
  apply initClientAndConfig_from_defined. by apply kubeconfig_nonempty.
Qed.


(** X13: on the Unix targets [initClientAndConfig] fails exactly when the
    kubeconfig cannot be loaded, or the credentials cannot be
    materialised, or the overlay fails. *)
Theorem initClientAndConfig_fails_iff (os : OS) :
  GOOS os ≠ "windows" →
  let kubeconfig := initClientAndConfig_kubeconfig os in
  (∃ err, initClientAndConfig os = inr err) ↔
  (∃ cause, rules_Load {| clientcmd.ExplicitPath := kubeconfig;
                          clientcmd.Precedence := [] |} = inr cause) ∨
  (∃ config, configFromPath os kubeconfig = inl config ∧
     ((∃ cause, ClientConfig_ClientConfig config = inr cause) ∨
      (∃ client, ClientConfig_ClientConfig config = inl client ∧
                 is_Some (applyGlobalOptionsToConfig os client).2))).
Proof.
  intros Hos kubeconfig.
  pose proof (kubeconfig_nonempty os Hos) as Hne. fold kubeconfig in Hne.
  assert (Nat.eqb (String.length kubeconfig) 0 = false) as Hlen
    by (destruct kubeconfig; [done|by simpl]).
  unfold initClientAndConfig, initClientAndConfig_from.
  fold kubeconfig. rewrite Hlen.
  unfold configFromPath.
  destruct (rules_Load _) as [credentials|cause].
  - match goal with
    | |- context [match ?cfg with inl _ => _ | inr _ => _ end] =>
        match type of cfg with
        | sum (clientcmd.ClientConfig _) _ => remember cfg as config eqn:Hc
        end
    end.
    assert (∃ cfg, config = inl cfg) as [cfg ->]
      by (rewrite Hc; destruct (Nat.ltb 0 _); by eexists).
    destruct (ClientConfig_ClientConfig cfg) as [client|cause] eqn:Hclient.
    + destruct (applyGlobalOptionsToConfig os client) as [client' [err|]] eqn:Happly.
      * split; [intros _|by eexists]. right. exists cfg. split; [done|].
        right. exists client. rewrite Happly. split; [done|by eexists].
      * split; [by intros [? ?]|].
        intros [[cause Hl]|(cfg' & Hcfg & Hor)]; [done|].
        injection Hcfg as <-.
        destruct Hor as [[cause Hm]|(client0 & Hc0 & Hs)]; [congruence|].
        rewrite Hclient in Hc0. injection Hc0 as <-.
        rewrite Happly in Hs. by destruct Hs.
    + split; [intros _|by eexists]. right. exists cfg. split; [done|].
      left. by eexists.
  - split; [intros _|by eexists]. left. by eexists.
Qed.

End InitFailures.

(** ** [InitService] *)

Section InitServiceTheorems.

Context `{External}.

Variable SetName : string → Kind → Kind.
Variable SetVerbose : bool → Kind → Kind.
Variable SetProviderName : string → Kind → Kind.

(** X15: when configuration resolution fails, [InitService] reports every
    service as not supported: the provider is left as it was, nothing is
    logged, and the resolution error is not part of the message. *)
Theorem InitService_config_failure p os err serviceName verbose' :
  initClientAndConfig os = inr err →
  InitService SetName SetVerbose SetProviderName p os serviceName verbose' =
    (Some (p, Some ("kubernetes: " +:+ serviceName +:+ " not supported resource")),
     []).
Proof.
  intros Hinit. unfold InitService, GetSupportedService.
  rewrite Hinit. by rewrite lookup_empty.
Qed.


End InitServiceTheorems.

Section InitSuccess.

Context `{External}.


End InitSuccess.


Lemma GetSupportedService_last_wins_witness :
  (@GetSupportedService duplicateWorld Sample.provider sampleOS).1 !! "deployments" =
    Some {| Group := "apps"; Version := "v1"; Name := "Deployment";
            Namespaced := true |}.
Proof.
  apply (@GetSupportedService_last_wins duplicateWorld Sample.provider sampleOS
           duplicateListing Sample.resourceTypes
           [("extensions/v1beta1", Sample.deployments)] []
           ("apps/v1", Sample.deployments)
           {| schema.Group := "apps"; schema.Version := "v1" |}).
  - do 4 eexists. repeat split; by vm_compute.
  - reflexivity.
  - reflexivity.
  - split; [apply (bool_decide_unpack _); by vm_compute|by eexists].
  - intros e' gv' Hin. by apply elem_of_nil in Hin.
Defined.

Lemma GetSupportedService_order_irrelevant_witness :
  fold_left (@GetSupportedService_list Sample.healthy Sample.resourceTypes)
    Sample.listing ∅ =
  fold_left (@GetSupportedService_list Sample.healthy Sample.resourceTypes)
    (rev Sample.listing) ∅.
Proof.
  apply (@GetSupportedService_order_irrelevant Sample.healthy).
  - apply Permutation_rev.
  - apply (bool_decide_unpack _). by vm_compute.
Defined.

Lemma GetSupportedService_schema_monotone_witness :
  is_Some (fold_left (@GetSupportedService_list Sample.healthy widerResourceTypes)
             Sample.listing ∅ !! "pods").
Proof.
  apply (@GetSupportedService_schema_monotone Sample.healthy
           Sample.resourceTypes widerResourceTypes).
  - apply insert_subseteq. by vm_compute.
  - eexists. by vm_compute.
Defined.

Lemma GetSupportedService_group_version_witness :
  slashFree "apps" ∧ slashFree "v1".
Proof.
  destruct (@GetSupportedService_group_version Sample.healthy Sample.provider
              sampleOS Sample.listing Sample.resourceTypes "deployments"
              {| Group := "apps"; Version := "v1"; Name := "Deployment";
                 Namespaced := true |} sample_discovered)
    as (Hg & Hv & _); [by vm_compute|].
  split; [exact Hg|exact Hv].
Defined.

Lemma initClientAndConfig_never_undefined_witness :
  @initClientAndConfig Sample.healthy sampleOS ≠ inr errKubeconfigUndefined.
Proof.
  apply (@initClientAndConfig_never_undefined Sample.healthy sampleOS).
  by vm_compute.
Defined.


Lemma initClientAndConfig_fails_iff_witness :
  ∃ err, @initClientAndConfig Sample.healthy missingKubeconfigOS = inr err.
Proof.
  apply (@initClientAndConfig_fails_iff Sample.healthy missingKubeconfigOS);
    [by vm_compute|].
  left. eexists. by vm_compute.
Defined.

Lemma InitService_config_failure_witness :
  @InitService Sample.healthy keepKind keepKind keepKind Sample.provider
    missingKubeconfigOS "pods" true =
  (Some (Sample.provider, Some "kubernetes: pods not supported resource"), []).
Proof.
  eapply (@InitService_config_failure Sample.healthy keepKind keepKind keepKind
            Sample.provider missingKubeconfigOS _ "pods" true).
  by vm_compute.
Defined.


(** ** [time.ParseDuration]: the rounds of the loop *)

Lemma leadingIntFrom_length (s : string) :
  ∀ x v rest, time.leadingIntFrom x s = Some (v, rest) →
  (String.length rest ≤ String.length s)%nat.
Proof.
  induction s as [|c s IH]; intros x v rest Hlead; simpl in Hlead.
  - by injection Hlead as <- <-.
  - destruct (negb (time.isDigit c)); [by injection Hlead as <- <-|].
    destruct (Z.gtb x _); [done|].
    destruct (Z.gtb _ _); [done|].
    apply IH in Hlead. simpl. lia.
Qed.

Lemma leadingFractionFrom_length (s : string) :
  ∀ x scale overflow,
  (String.length (time.leadingFractionFrom x scale overflow s).2
     ≤ String.length s)%nat.
Proof.
  induction s as [|c s IH]; intros x scale overflow; simpl; [done|].
  destruct (negb (time.isDigit c)); [done|].
  destruct overflow; [etrans; [apply IH|lia]|].
  destruct (Z.gtb x _); [etrans; [apply IH|lia]|].
  destruct (Z.gtb _ _); (etrans; [apply IH|lia]).
Qed.

Lemma spanUnit_length (s u rest : string) :
  time.spanUnit s = (u, rest) →
  String.length s = (String.length u + String.length rest)%nat.
Proof.
  revert u rest. induction s as [|c s IH]; intros u rest Hspan; simpl in Hspan.
  - by injection Hspan as <- <-.
  - destruct (time.isDot c || time.isDigit c); [by injection Hspan as <- <-|].
    destruct (time.spanUnit s) as [u' rest'] eqn:Hs. injection Hspan as <- <-.
    simpl. by rewrite (IH u' rest').
Qed.

Section Fuel.

Variable fraction : Z → Z → Z → Z.

Local Ltac length_facts :=
  repeat match goal with
  | H : time.leadingInt _ = Some (_, _) |- _ =>
      apply leadingIntFrom_length in H
  | H : time.leadingFraction ?s = (_, _, ?r) |- _ =>
      let Hl := fresh "Hl" in
      pose proof (leadingFractionFrom_length s 0 1 false) as Hl;
      unfold time.leadingFraction in H; rewrite H in Hl; simpl in Hl; clear H
  | H : time.spanUnit _ = (_, _) |- _ => apply spanUnit_length in H
  | H : String.eqb ?u "" = false |- _ =>
      apply String.eqb_neq in H; destruct u; [done|]; clear H
  end.

(** Any two amounts of fuel that cover the length of the input give the
    same result: the loop never runs out of rounds. *)
Lemma parseTerms_fuel (n : nat) :
  ∀ fuel fuel' orig s d,
  (String.length s ≤ n)%nat → (n ≤ fuel)%nat → (n ≤ fuel')%nat →
  time.parseTerms fraction fuel orig s d = time.parseTerms fraction fuel' orig s d.
Proof.
  induction n as [|n IH]; intros fuel fuel' orig s d Hlen Hf Hf'.
  - destruct s; [|simpl in Hlen; lia]. by destruct fuel, fuel'.
  - destruct s as [|c0 s0]; [by destruct fuel, fuel'|].
    destruct fuel as [|fuel]; [lia|]. destruct fuel' as [|fuel']; [lia|].
    simpl.
    repeat match goal with
    | |- context [match ?x with _ => _ end] => destruct x eqn:?
    end; try reflexivity.
    all: apply IH; [|lia..].
    all: repeat match goal with
         | H : match ?s with EmptyString => _ | String _ _ => _ end = (_, _, _, _)
           |- _ => destruct s; simpl in H
         | H : (if ?b then _ else _) = (_, _, _, _) |- _ => destruct b eqn:?
         | H : context [time.leadingFraction ?x] |- _ =>
             lazymatch type of H with
             | time.leadingFraction _ = _ => fail
             | _ => destruct (time.leadingFraction x) as [[? ?] ?] eqn:?
             end
         end.
    all: simplify_eq; length_facts; simpl in *; lia.
Qed.

End Fuel.

Section InitServiceAgain.

Context `{External}.

Variable SetName : string → Kind → Kind.
Variable SetVerbose : bool → Kind → Kind.
Variable SetProviderName : string → Kind → Kind.

Lemma GetSupportedService_verbose p p' os :
  verbose p = verbose p' → GetSupportedService p os = GetSupportedService p' os.
Proof. intros Hv. unfold GetSupportedService. by rewrite Hv. Qed.


End InitServiceAgain.

Section ResolutionFrame.

Context `{External}.


End ResolutionFrame.


